(** * Root bootstrap of the chat client: [app/index.tsx]

    A shallow embedding of the control logic of [app/index.tsx]: the
    deep-link parser [parseDeepLinking], the layout-mode resolver
    [getMasterDetail] / [setMasterDetail], the startup arbitration [init],
    the debounced dimension handler [onDimensionsChange] and the theme
    subscription lifecycle of the [Root] component.

    Conventions.
    - A JavaScript string is a sequence of UTF-16 code units: a list of
      numbers ([jsstring]), each below 65536 in a real string; no
      definition depends on that bound.  [js "..."] is the string of a
      literal.
    - A JavaScript object used as a dictionary is a [gmap jsstring _].
    - [null] and [undefined] results are [None].
    - A call that can throw, and an awaited promise that can reject, give a
      [completion]: [Return] with the value or [Throw] with what was
      thrown. *)

From Stdlib Require Import Ascii String QArith.
From stdpp Require Import base strings gmap list.

(** A UTF-16 code unit, and a string of them. *)
Abbreviation code_unit := N.
Abbreviation jsstring := (list N).

(** The string of a literal: each character is its own code unit. *)
Definition js (s : string) : jsstring := N_of_ascii <$> list_ascii_of_string s.
Arguments js : simpl never.

(** How a call ends: it returns a value or throws; an awaited promise
    resolves with a value or rejects. *)
Inductive completion (E A : Type) : Type :=
| Return (a : A)
| Throw (e : E).
Arguments Return {E A} a.
Arguments Throw {E A} e.

(** ** Strings and the two regular expressions of the parser *)

Module JsString.

(** Truthiness of a string: only the empty string is falsy. *)
Definition truthy (s : jsstring) : bool :=
  match s with
  | [] => false
  | _ :: _ => true
  end.

(** Line terminators, the characters a [.] does not match: LF, CR, LS
    (U+2028) and PS (U+2029). *)
Definition is_line_terminator (c : code_unit) : bool :=
  bool_decide (c ∈ [10; 13; 8232; 8233]%N).

(** White space and line terminators removed by [String.prototype.trim]:
    TAB, LF, VT, FF, CR, SP, NBSP, U+1680, U+2000 to U+200A, LS, PS,
    U+202F, U+205F, U+3000 and U+FEFF. *)
Definition is_white_space (c : code_unit) : bool :=
  bool_decide (c ∈ [9; 10; 11; 12; 13; 32; 160; 5760; 8232; 8233; 8239; 8287;
                    12288; 65279]%N)
  || ((8192 <=? c) && (c <=? 8202))%N.

(** Equality of strings. *)
Fixpoint eqb (s t : jsstring) : bool :=
  match s, t with
  | [], [] => true
  | a :: s', b :: t' => N.eqb a b && eqb s' t'
  | _, _ => false
  end.

Fixpoint trimStart (s : jsstring) : jsstring :=
  match s with
  | [] => []
  | c :: s' => if is_white_space c then trimStart s' else s
  end.

Fixpoint trimEnd (s : jsstring) : jsstring :=
  match s with
  | [] => []
  | c :: s' =>
      match trimEnd s' with
      | [] => if is_white_space c then [] else c :: []
      | t => c :: t
      end
  end.

Definition trim (s : jsstring) : jsstring := trimEnd (trimStart s).

(** [strip_prefix p s] is [Some r] when [s = p ++ r]. *)
Fixpoint strip_prefix (p s : jsstring) : option jsstring :=
  match p, s with
  | [], _ => Some s
  | a :: p', b :: s' => if N.eqb a b then strip_prefix p' s' else None
  | _ :: _, [] => None
  end.

Fixpoint all_white_space (s : jsstring) : bool :=
  match s with
  | [] => true
  | c :: s' => is_white_space c && all_white_space s'
  end.

Arguments is_line_terminator : simpl never.
Arguments is_white_space : simpl never.

End JsString.

Module Regex.
Import JsString.

(** One pattern character: a literal, or the wildcard [.]. *)
Inductive atom : Type :=
| Lit (c : code_unit)
| Dot.

Definition atom_matches (a : atom) (c : code_unit) : bool :=
  match a with
  | Lit d => N.eqb d c
  | Dot => negb (is_line_terminator c)
  end.

Fixpoint lits (s : jsstring) : list atom :=
  match s with
  | [] => []
  | c :: s' => Lit c :: lits s'
  end.

(** Match a sequence of atoms at the start of [s]; the result is what
    follows the match. *)
Fixpoint match_seq (p : list atom) (s : jsstring) : option jsstring :=
  match p, s with
  | [], _ => Some s
  | a :: p', c :: s' => if atom_matches a c then match_seq p' s' else None
  | _ :: _, [] => None
  end.

(** An alternation [p1|p2|...]: the first alternative that matches. *)
Fixpoint match_alt (alts : list (list atom)) (s : jsstring) : option jsstring :=
  match alts with
  | [] => None
  | p :: alts' =>
      match match_seq p s with
      | Some r => Some r
      | None => match_alt alts' s
      end
  end.

(** [s.replace(re, '')] for a regular expression without the [g] flag
    and without anchor: the leftmost match is removed, wherever it is. *)
Fixpoint replace_first (alts : list (list atom)) (s : jsstring) : jsstring :=
  match match_alt alts s with
  | Some r => r
  | None =>
      match s with
      | [] => []
      | c :: s' => c :: replace_first alts s'
      end
  end.

(** [re.test(s)]: some match exists, at any position. *)
Fixpoint test (alts : list (list atom)) (s : jsstring) : bool :=
  match match_alt alts s with
  | Some _ => true
  | None =>
      match s with
      | [] => false
      | _ :: s' => test alts s'
      end
  end.

(** [s.includes(p)]: the text [p] occurs in [s]. *)
Definition includes (p s : jsstring) : bool := test [lits p] s.

(** [/rocketchat:\/\/|https:\/\/go.rocket.chat\//]: the two dots of the
    host are not escaped in the source, they are wildcards. *)
Definition scheme_regex : list (list atom) :=
  [ lits (js "rocketchat://");
    lits (js "https://go") ++ [Dot] ++ lits (js "rocket") ++ [Dot] ++ lits (js "chat/") ].

(** [/^(room|auth|invite|shareextension)\?/] *)
Definition keywords : list jsstring := [js "room"; js "auth"; js "invite"; js "shareextension"].

(** The anchored match: capture group 1 and the text after the match. *)
Fixpoint exec_keywords (kws : list jsstring) (url : jsstring) : option (jsstring * jsstring) :=
  match kws with
  | [] => None
  | kw :: kws' =>
      match strip_prefix (kw ++ js "?") url with
      | Some rest => Some (kw, rest)
      | None => exec_keywords kws' url
      end
  end.

(** [url.match(regex)], reduced to [match[1]]. *)
Definition keyword_match (url : jsstring) : option jsstring :=
  fst <$> exec_keywords keywords url.

(** [url.replace(regex, '')] *)
Definition keyword_replace (url : jsstring) : jsstring :=
  from_option snd url (exec_keywords keywords url).

End Regex.

(** ** The deep-link parser *)

Module DeepLink.
Import JsString Regex.

(** Values found in an intent: [undefined], a string, or any other value the
    query parser may produce. *)
Inductive value (V : Type) : Type :=
| Undefined
| Str (s : jsstring)
| Other (v : V).
Arguments Undefined {V}.
Arguments Str {V} s.
Arguments Other {V} v.

Section Parser.
Context {V E : Type}.

(** [./lib/methods/helpers/parseQuery] is imported, not defined, by
    [index.tsx]: it is a parameter.  It may throw; [None] is a [null] or
    [undefined] result, which the source allows for with
    [parsedQuery?.type]. *)
Variable parseQuery : jsstring -> completion E (option (gmap jsstring (value V))).

(** [{...parsedQuery}]: spreading [null] or [undefined] copies nothing. *)
Definition spread (parsedQuery : option (gmap jsstring (value V))) : gmap jsstring (value V) :=
  default ∅ parsedQuery.

(** [parsedQuery?.type] *)
Definition query_type (parsedQuery : option (gmap jsstring (value V))) : value V :=
  match parsedQuery with
  | Some q => default Undefined (q !! js "type")
  | None => Undefined
  end.

(** No statement of [parseDeepLinking] is in a [try]: what [parseQuery]
    throws leaves the function. *)
Definition parseDeepLinking (url : option jsstring)
  : completion E (option (gmap jsstring (value V))) :=
  match url with
  | Some url =>
      if truthy url then
        let url := replace_first scheme_regex url in
        match keyword_match url with
        | Some matchedPattern =>
            let query := trim (keyword_replace url) in
            if truthy query then
              match parseQuery query with
              | Throw e => Throw e
              | Return parsedQuery =>
                  Return (Some (<[js "type" :=
                                    if eqb matchedPattern (js "shareextension")
                                    then Str matchedPattern
                                    else query_type parsedQuery]>
                                  (spread parsedQuery)))
              end
            else Return None
        | None => Return None
        end
      else Return None
  | None => Return None
  end.

End Parser.

(** Cut [s] at the first [d]: the text before it and, when there is a
    [d], the text after it. *)
Fixpoint split_at (d : code_unit) (s : jsstring) : jsstring * option jsstring :=
  match s with
  | [] => ([], None)
  | c :: s' =>
      if N.eqb c d then ([], Some s')
      else let '(a, b) := split_at d s' in (c :: a, b)
  end.

(** [s.split(d)], with the length of [s] as fuel. *)
Fixpoint split_all (fuel : nat) (d : code_unit) (s : jsstring) : list jsstring :=
  match fuel with
  | O => [s]
  | S fuel' =>
      match split_at d s with
      | (a, None) => [a]
      | (a, Some b) => a :: split_all fuel' d b
      end
  end.

(** Modelled from the spec: the query-parsing collaborator
    [./lib/methods/helpers/parseQuery] is not part of [index.tsx].  The
    spec describes its input as ampersand-delimited [key=value] pairs and
    its result as a mapping of string to string; this instance splits at
    [&] (code unit 38) and at the first [=] (61) of each pair, and never
    throws.  It is used to run the parser on concrete URLs only. *)
Definition parseQuery_model {E : Type} (query : jsstring)
  : completion E (option (gmap jsstring (value Empty_set))) :=
  Return (Some (foldl (fun (result : gmap jsstring (value Empty_set)) (pair : jsstring) =>
                         let '(k, v) := split_at 61%N pair in
                         <[k := Str (default [] v)]> result)
                      ∅ (split_all (length query) 38%N query))).

End DeepLink.

(** ** Numbers and the layout-mode resolver *)

Module Number.

(** A JavaScript number as the comparison [>] sees it: [NaN], one of the
    two infinities, or a finite value.  Every finite double is a
    rational, and the sign of zero plays no part in a comparison. *)
Inductive number : Type :=
| NaN
| Infinity (negative : bool)
| Finite (q : Q).

(** [a > b] *)
Definition gt (a b : number) : bool :=
  match a, b with
  | NaN, _ => false
  | _, NaN => false
  | Infinity na, Infinity nb => negb na && nb
  | Infinity na, Finite _ => negb na
  | Finite _, Infinity nb => nb
  | Finite x, Finite y => negb (Qle_bool x y)
  end.

End Number.

Module Layout.
Import Number.

Section Resolver.
(** [isTablet] and [MIN_WIDTH_MASTER_DETAIL_LAYOUT] are imported
    constants whose values are not in [index.tsx]: they are
    parameters.  The threshold is a width, a finite number. *)
Variable isTablet : bool.
Variable MIN_WIDTH_MASTER_DETAIL_LAYOUT : Q.

Definition getMasterDetail (width : number) : bool :=
  if negb isTablet then false
  else gt width (Finite MIN_WIDTH_MASTER_DETAIL_LAYOUT).

End Resolver.

End Layout.

(** ** Effects: the store, the host and the trace of what [Root] does *)

Module Effects.
Import Number DeepLink.

Record IDimensions : Type := {
  width : number;
  height : number;
  scale : number;
  fontScale : number
}.

Section Events.
Context {V N E : Type}.

(** The actions [index.tsx] dispatches to the store. *)
Inductive action : Type :=
| appInitLocalSettings
| appInit
| deepLinkingOpen (params : gmap jsstring (value V))
| setMasterDetailAction (isMasterDetail : bool).

(** What is observable of a run, in the order it happens: dispatches to
    the store, calls of the collaborators, updates of React state. *)
Inductive event : Type :=
| Dispatch (a : action)
| InitializePushNotifications
| OnNotification (notification : N)
| GetInitialNotification
| GetInitialURL
| SetDimensions (d : IDimensions).

(** How the three promises [init] awaits settle: that of
    [initializePushNotifications()], that of [getInitialNotification()] and
    that of [Linking.getInitialURL()].  Each resolves or rejects. *)
Record host : Type := {
  pendingNotification : completion E (option N);
  initialNotification : completion E unit;
  initialURL : completion E (option jsstring)
}.

(** Computations that read the host, append to the trace, and return or
    throw. *)
Definition M (A : Type) : Type := host -> list event -> completion E A * list event.

Definition emit (e : event) : M unit := fun _ t => (Return tt, t ++ [e]).

(** [await]: the value the promise resolves with; a rejection is
    thrown. *)
Definition await {A} (f : host -> completion E A) : M A := fun h t => (f h, t).

(** A call that returns or throws. *)
Definition lift {A} (c : completion E A) : M A := fun _ t => (c, t).

Definition trace_of {A} (m : M A) (h : host) : list event := snd (m h []).

Definition outcome_of {A} (m : M A) (h : host) : completion E A := fst (m h []).

End Events.

Arguments action : clear implicits.
Arguments event : clear implicits.
Arguments host : clear implicits.
Arguments M : clear implicits.

#[global] Instance M_ret {V N E} : MRet (M V N E) := fun A (a : A) _ t => (Return a, t).

(** Nothing is caught: what a step throws ends the computation. *)
#[global] Instance M_bind {V N E} : MBind (M V N E) :=
  fun A B (k : A -> M V N E B) (m : M V N E A) h t =>
    match m h t with
    | (Return a, t') => k a h t'
    | (Throw e, t') => (Throw e, t')
    end.

(** A host whose promises all resolve, with no pending notification and no
    initial URL. *)
Definition quiet_host : host unit unit :=
  {| pendingNotification := Return None;
     initialNotification := Return tt;
     initialURL := Return None |}.

End Effects.

(** ** The startup arbitration *)

Module Startup.
Import Number DeepLink Layout Effects.

Section Init.
Context {V N E : Type}.
Variable parseQuery : jsstring -> completion E (option (gmap jsstring (value V))).
Variable isTablet : bool.
Variable MIN_WIDTH_MASTER_DETAIL_LAYOUT : Q.

Abbreviation event := (event V N).
Abbreviation M := (M V N E).

Definition dispatch (a : action V) : M unit := emit (Dispatch a).

(** [await initializePushNotifications()] *)
Definition initializePushNotifications : M (option N) :=
  emit InitializePushNotifications;; await pendingNotification.

Definition onNotification (notification : N) : M unit :=
  emit (OnNotification notification).

(** [await getInitialNotification()]: the result is not used. *)
Definition getInitialNotification : M unit :=
  emit GetInitialNotification;; await initialNotification.

(** [await Linking.getInitialURL()] *)
Definition getInitialURL : M (option jsstring) :=
  emit GetInitialURL;; await initialURL.

(** The function [init] of the mount effect.  Each [return] of the
    source ends its branch here; [init] has no [try], so a rejection of
    an awaited promise, or what [parseDeepLinking] throws, ends it. *)
Definition init : M unit :=
  dispatch appInitLocalSettings;;
  notification ← initializePushNotifications;
  match notification with
  | Some notification => onNotification notification
  | None =>
      getInitialNotification;;
      deepLinking ← getInitialURL;
      parsedDeepLinkingURL ← lift (parseDeepLinking parseQuery deepLinking);
      match parsedDeepLinkingURL with
      | Some parsedDeepLinkingURL => dispatch (deepLinkingOpen parsedDeepLinkingURL)
      | None => dispatch appInit
      end
  end.

Definition setMasterDetail (width : number) : M unit :=
  let isMasterDetail := getMasterDetail isTablet MIN_WIDTH_MASTER_DETAIL_LAYOUT width in
  dispatch (setMasterDetailAction isMasterDetail).

(** The function wrapped by [debounce] in [onDimensionsChange]. *)
Definition applyDimensions (window : IDimensions) : M unit :=
  emit (SetDimensions {| width := width window; height := height window;
                         scale := scale window; fontScale := fontScale window |});;
  setMasterDetail (width window).

(** The three ways the arbitration can end. *)
Definition terminal (e : event) : bool :=
  match e with
  | OnNotification _ => true
  | Dispatch (deepLinkingOpen _) => true
  | Dispatch appInit => true
  | _ => false
  end.

Definition is_deepLinkingOpen (e : event) : bool :=
  match e with
  | Dispatch (deepLinkingOpen _) => true
  | _ => false
  end.

Definition is_appInit (e : event) : bool :=
  match e with
  | Dispatch appInit => true
  | _ => false
  end.

Definition is_onNotification (e : event) : bool :=
  match e with
  | OnNotification _ => true
  | _ => false
  end.

Definition is_appInitLocalSettings (e : event) : bool :=
  match e with
  | Dispatch appInitLocalSettings => true
  | _ => false
  end.

End Init.

End Startup.

(** ** The debounced dimension handler *)

Module Debounce.

(** [debounce] of [./lib/methods/helpers] is imported, not defined, by
    [index.tsx].  Time is counted in ticks; the quiescence window [wait]
    is a parameter ([index.tsx] passes none). *)
Section Debounce.
Context {A : Type}.
Variable wait : nat.

Record timer : Type := {
  deadline : nat;
  args : A
}.

(** Modelled from the spec: [debounce] is a stateful timer component that
    holds the last-seen input and a single pending-timer handle. *)
Definition state : Type := option timer.

(** Modelled from the spec: each new input cancels and reschedules.  A
    new input arrives at time [now]. *)
Definition call (now : nat) (a : A) (st : state) : state :=
  Some {| deadline := now + wait; args := a |}.

(** Modelled from the spec: the handler fires with the most recent input
    only, once the quiescence window has elapsed with no further input.
    The clock reaches [now]: a pending timer that is due fires, with the
    input it holds. *)
Definition advance (now : nat) (st : state) : state * list (nat * A) :=
  match st with
  | Some tm =>
      if deadline tm <=? now then (None, [(deadline tm, args tm)]) else (Some tm, [])
  | None => (None, [])
  end.

(** The host delivers the inputs [events], each with its arrival time,
    then the clock runs on to [horizon].  The result lists the calls of
    the wrapped function, each with the time it is made. *)
Fixpoint run (events : list (nat * A)) (horizon : nat) (st : state) : list (nat * A) :=
  match events with
  | [] => snd (advance horizon st)
  | (t, a) :: events' =>
      let '(st', fired) := advance t st in
      fired ++ run events' horizon (call t a st')
  end.

(** [events] continues a burst whose latest input came at [t0]: each
    input arrives no earlier than its predecessor and less than [wait]
    after it. *)
Fixpoint burst_after (t0 : nat) (events : list (nat * A)) : Prop :=
  match events with
  | [] => True
  | (t, _) :: events' => t0 <= t /\ t < t0 + wait /\ burst_after t events'
  end.

(** The last input of the burst that starts with [e]. *)
Fixpoint last_input (e : nat * A) (events : list (nat * A)) : nat * A :=
  match events with
  | [] => e
  | e' :: events' => last_input e' events'
  end.

End Debounce.

Arguments timer : clear implicits.
Arguments state : clear implicits.

End Debounce.

Module Dimensions.
Import Number DeepLink Layout Effects Startup Debounce.

Section Tracker.
Context {V N E : Type}.
Variable isTablet : bool.
Variable MIN_WIDTH_MASTER_DETAIL_LAYOUT : Q.
Variable wait : nat.
Variable h : host N E.

(** [onDimensionsChange = debounce(({ window }) => ...)]: the updates
    applied when the host delivers [events] and the clock runs on to
    [horizon]; each is the trace of one call of the wrapped function. *)
Definition onDimensionsChange (events : list (nat * IDimensions)) (horizon : nat)
  : list (nat * list (event V N)) :=
  (fun '(t, window) =>
     (t, trace_of (applyDimensions isTablet MIN_WIDTH_MASTER_DETAIL_LAYOUT window) h))
    <$> run wait events horizon None.

End Tracker.

End Dimensions.

(** ** The theme subscription *)

Module Theme.

(** [subscribeTheme] and [unsubscribeTheme] of
    [./lib/methods/helpers/theme] are imported, not defined, by
    [index.tsx].  The theme source keeps the registered callbacks; the
    helper module keeps the handle of its own registration.  A callback is
    [() => setTheme(themePreferences)]: it is represented by the preference
    it captured. *)
Section Subscription.
Context {P : Type}.

Record theme : Type := {
  listeners : list (nat * P);
  next_handle : nat;
  themeListener : option nat
}.

Definition initial : theme :=
  {| listeners := []; next_handle := 0; themeListener := None |}.

(** The theme source forgets the callback registered under [handle]. *)
Definition remove_listener (handle : nat) (ls : list (nat * P)) : list (nat * P) :=
  filter (fun l => l.1 ≠ handle) ls.

(** Modelled from the spec: [Subscribed -> Unsubscribed] on teardown;
    [Unsubscribed] is both initial and terminal. *)
Definition unsubscribeTheme (st : theme) : theme :=
  match themeListener st with
  | Some handle =>
      {| listeners := remove_listener handle (listeners st);
         next_handle := next_handle st;
         themeListener := None |}
  | None => st
  end.

(** Modelled from the spec: [Unsubscribed -> Subscribed] on the first
    subscribe; [Subscribed -> Subscribed] (replace) on a later one, the old
    handle being unsubscribed before the new one is registered, so that no
    two callbacks are live at once. *)
Definition subscribeTheme (themePreferences : P) (st : theme) : theme :=
  let st := unsubscribeTheme st in
  {| listeners := listeners st ++ [(next_handle st, themePreferences)];
     next_handle := S (next_handle st);
     themeListener := Some (next_handle st) |}.

(** One preference-change event of the theme source: every registered
    callback runs; the result lists the [setTheme] calls. *)
Definition change_event (st : theme) : list P := (listeners st).*2.

(** The part of the lifecycle of [Root] that touches the subscription
    (this part is from [index.tsx]): the second effect runs
    [subscribeTheme] after the first render and again whenever
    [themeState.themePreferences] changes; the cleanup of the mount
    effect runs [unsubscribeTheme]. *)
Inductive lifecycle : Type :=
| Mount (themePreferences : P)
| PreferencesChanged (themePreferences : P)
| Unmount.

Record root : Type := {
  mounted : bool;
  subscription : theme
}.

Definition root_initial : root := {| mounted := false; subscription := initial |}.

Definition step (r : root) (e : lifecycle) : root :=
  match e with
  | Mount p =>
      if mounted r then r
      else {| mounted := true; subscription := subscribeTheme p (subscription r) |}
  | PreferencesChanged p =>
      if mounted r
      then {| mounted := true; subscription := subscribeTheme p (subscription r) |}
      else r
  | Unmount =>
      if mounted r
      then {| mounted := false; subscription := unsubscribeTheme (subscription r) |}
      else r
  end.

Definition run (es : list lifecycle) : root := foldl step root_initial es.

(** Number of live subscriptions. *)
Definition live (r : root) : nat := length (listeners (subscription r)).

(** The subscription of a mounted [Root] is the one registered callback;
    an unmounted [Root] has none. *)
Definition subscription_inv (r : root) : Prop :=
  if mounted r
  then exists handle p,
         listeners (subscription r) = [(handle, p)] /\
         themeListener (subscription r) = Some handle
  else listeners (subscription r) = [] /\ themeListener (subscription r) = None.

End Subscription.

Arguments theme : clear implicits.
Arguments root : clear implicits.
Arguments lifecycle : clear implicits.

End Theme.

(** ** The listener for links opened while the app runs *)

Module UrlListener.
Import DeepLink Effects Startup.

Section Listener.
Context {V N0 E : Type}.
Variable parseQuery : jsstring -> completion E (option (gmap jsstring (value V))).
Variable h : host N0 E.

(** The callback given to [Linking.addEventListener('url', ...)].  What
    [parseDeepLinking] throws leaves the callback. *)
Definition onUrl (url : jsstring) : M V N0 E unit :=
  parsedDeepLinkingURL ← lift (parseDeepLinking parseQuery (Some url));
  match parsedDeepLinkingURL with
  | Some parsedDeepLinkingURL => dispatch (deepLinkingOpen parsedDeepLinkingURL)
  | None => mret tt
  end.

(** What happens to the mounted component: the host reports an opened
    link, or the component is unmounted. *)
Inductive occurrence : Type :=
| UrlOpened (url : jsstring)
| Unmount.

(** [timeout] tells whether the timer of [setTimeout(..., 5000)] is still
    pending, [listening] whether the [url] listener is registered. *)
Record listener : Type := {
  timeout : bool;
  listening : bool
}.

(** The state the mount effect leaves: the timer is armed. *)
Definition armed : listener := {| timeout := true; listening := false |}.

(** The clock reaches [now] (in ms since the mount effect): a pending
    timer that is due fires, and its callback registers the listener. *)
Definition elapse (now : N) (st : listener) : listener :=
  if timeout st && (5000 <=? now)%N
  then {| timeout := false; listening := true |}
  else st.

(** The cleanup of the mount effect, as far as links go:
    [clearTimeout(timeout)].  The [url] listener is not removed. *)
Definition cleanup (st : listener) : listener :=
  {| timeout := false; listening := listening st |}.

Definition occur (o : occurrence) (st : listener) : listener * list (event V N0) :=
  match o with
  | UrlOpened url => (st, if listening st then trace_of (onUrl url) h else [])
  | Unmount => (cleanup st, [])
  end.

(** The occurrences [os], each with its time, in the order they happen. *)
Fixpoint run (os : list (N * occurrence)) (st : listener) : list (event V N0) :=
  match os with
  | [] => []
  | (t, o) :: os' =>
      let '(st', out) := occur o (elapse t st) in
      out ++ run os' st'
  end.

End Listener.

End UrlListener.

(** ** The mount effect *)

Module Mount.
Import Number DeepLink Layout Effects Startup.

Section Effect.
Context {V N E P : Type}.
Variable parseQuery : jsstring -> completion E (option (gmap jsstring (value V))).
Variable isFDroidBuild : bool.
Variable isTablet : bool.
Variable MIN_WIDTH_MASTER_DETAIL_LAYOUT : Q.
Variable h : host N E.

(** What the mount effect does, in order: the events of [init] and of
    [setMasterDetail], and the calls it makes besides. *)
Inductive step : Type :=
| Event (e : event V N)
| GetAllowCrashReport
| GetAllowAnalyticsEvents
| SetNativeTheme (themePreferences : P)
| SetTimeout (ms : BinNums.N)
| AddDimensionsListener.

(** [init()] up to its first [await]: this part runs inside the effect. *)
Definition init_started : M V N E unit :=
  dispatch appInitLocalSettings;; emit InitializePushNotifications.

(** [init] from its first [await] on: this part runs when the effect has
    returned, and ends early when a promise rejects or [parseDeepLinking]
    throws. *)
Definition init_resumed : M V N E unit :=
  notification ← await pendingNotification;
  match notification with
  | Some notification => onNotification notification
  | None =>
      getInitialNotification;;
      deepLinking ← getInitialURL;
      parsedDeepLinkingURL ← lift (parseDeepLinking parseQuery deepLinking);
      match parsedDeepLinkingURL with
      | Some parsedDeepLinkingURL => dispatch (deepLinkingOpen parsedDeepLinkingURL)
      | None => dispatch appInit
      end
  end.

(** [initCrashReport]: the two queries it starts.  Their [then] callbacks
    run later and are not part of the effect. *)
Definition initCrashReport : list step :=
  [GetAllowCrashReport; GetAllowAnalyticsEvents].

(** [initTablet], given the [width] of [themeState]. *)
Definition initTablet (width : number) : M V N E unit :=
  setMasterDetail isTablet MIN_WIDTH_MASTER_DETAIL_LAYOUT width.

(** The body of the mount effect, given the [width] of [themeState] and
    [initTheme]. *)
Definition mountEffect (width : number) (initTheme : P) : list step :=
  (Event <$> trace_of init_started h) ++
  (if negb isFDroidBuild then initCrashReport else []) ++
  (if isTablet then Event <$> trace_of (initTablet width) h else []) ++
  [SetNativeTheme initTheme; SetTimeout 5000%N; AddDimensionsListener].

(** The mount effect followed by the rest of [init]. *)
Definition mount (width : number) (initTheme : P) : list step :=
  mountEffect width initTheme ++ (Event <$> trace_of init_resumed h).

Definition is_setMasterDetail (s : step) : bool :=
  match s with
  | Event (Dispatch (setMasterDetailAction _)) => true
  | _ => false
  end.

Definition is_report_query (s : step) : bool :=
  match s with
  | GetAllowCrashReport | GetAllowAnalyticsEvents => true
  | _ => false
  end.

Definition is_terminal (s : step) : bool :=
  match s with
  | Event e => terminal e
  | _ => false
  end.

End Effect.

Arguments step : clear implicits.

End Mount.

(** ** The state of [Root] *)

Module ThemeState.

(** The value of the [state] cell: [{ themePreferences, theme }]. *)
Record t (P T : Type) : Type := {
  themePreferences : P;
  theme : T
}.
Arguments themePreferences {P T} _.
Arguments theme {P T} _.

End ThemeState.

Module RootState.
Import Number.

(** [IState], the value of the [themeState] cell. *)
Record IState (P T : Type) : Type := {
  theme : T;
  themePreferences : P;
  width : number;
  height : number;
  scale : number;
  fontScale : number
}.
Arguments theme {P T} _.
Arguments themePreferences {P T} _.
Arguments width {P T} _.
Arguments height {P T} _.
Arguments scale {P T} _.
Arguments fontScale {P T} _.

(** The three [useState] cells of [Root]. *)
Record cells (P T : Type) : Type := {
  dimensions : Effects.IDimensions;
  state : ThemeState.t P T;
  themeState : IState P T
}.
Arguments dimensions {P T} _.
Arguments state {P T} _.
Arguments themeState {P T} _.

Section Cells.
Context {P T : Type}.

(** [initialTheme], [getTheme] and [newThemeState] are imported from
    [./lib/methods/helpers/theme]: they are parameters. *)
Variable initialTheme : P.
Variable getTheme : P -> T.
Variable newThemeState : ThemeState.t P T -> P -> ThemeState.t P T.

(** The initial values of the cells, given [Dimensions.get('window')]. *)
Definition initial (window : Effects.IDimensions) : cells P T :=
  let dimensions := window in
  let state := {| ThemeState.themePreferences := initialTheme;
                  ThemeState.theme := getTheme initialTheme |} in
  {| dimensions := dimensions;
     state := state;
     themeState := {| theme := ThemeState.theme state;
                      themePreferences := ThemeState.themePreferences state;
                      width := Effects.width dimensions;
                      height := Effects.height dimensions;
                      scale := Effects.scale dimensions;
                      fontScale := Effects.fontScale dimensions |} |}.

Definition setDimensions (d : Effects.IDimensions) (c : cells P T) : cells P T :=
  {| dimensions := d; state := state c; themeState := themeState c |}.

(** [setTheme(newTheme)], for the closure made by a render in which the
    [state] cell had the value [captured]: [setState] and [setThemeState]
    receive updaters, which are applied to the current cells. *)
Definition setTheme (captured : ThemeState.t P T) (newTheme : option P)
    (c : cells P T) : cells P T :=
  match newTheme with
  | None => c
  | Some newTheme =>
      {| dimensions := dimensions c;
         state := newThemeState (state c) newTheme;
         themeState :=
           let prevstate := themeState c in
           {| theme := ThemeState.theme captured;
              themePreferences := ThemeState.themePreferences captured;
              width := width prevstate;
              height := height prevstate;
              scale := scale prevstate;
              fontScale := fontScale prevstate |} |}
  end.

(** The value given to [DimensionsContext.Provider], without
    [setDimensions]. *)
Definition dimensionsContext (c : cells P T) : Effects.IDimensions :=
  {| Effects.width := width (themeState c);
     Effects.height := height (themeState c);
     Effects.scale := scale (themeState c);
     Effects.fontScale := fontScale (themeState c) |}.

(** The value given to [ThemeContext.Provider], without [setTheme] and
    [colors]. *)
Definition themeContext (c : cells P T) : ThemeState.t P T :=
  {| ThemeState.themePreferences := themePreferences (themeState c);
     ThemeState.theme := theme (themeState c) |}.

(** The state updates the rest of the app and the host can cause. *)
Inductive update : Type :=
| SetDimensions (d : Effects.IDimensions)
| SetTheme (captured : ThemeState.t P T) (newTheme : option P).

Definition apply (c : cells P T) (u : update) : cells P T :=
  match u with
  | SetDimensions d => setDimensions d c
  | SetTheme captured newTheme => setTheme captured newTheme c
  end.

Definition updates (window : Effects.IDimensions) (us : list update) : cells P T :=
  foldl apply (initial window) us.

End Cells.

Arguments update : clear implicits.

End RootState.

(** * Properties *)

(** ** Strings *)

Section StringFacts.
Import JsString.

Lemma strip_prefix_Some (p s r : jsstring) :
  strip_prefix p s = Some r <-> s = p ++ r.
Proof.
  revert s; induction p as [|a p IH]; intros s; simpl.
  - split; [intros [= ->]; reflexivity | intros ->; reflexivity].
  - destruct s as [|b s]; [split; discriminate|].
    destruct (N.eqb_spec a b) as [->|Hne].
    + rewrite IH. cbn. split; [intros ->; reflexivity | intros [= ->]; reflexivity].
    + cbn. split; [discriminate | intros [= ? ?]; congruence].
Qed.

Lemma strip_prefix_app (p r : jsstring) : strip_prefix p (p ++ r) = Some r.
Proof. apply strip_prefix_Some; reflexivity. Qed.

Lemma trimStart_empty (s : jsstring) :
  trimStart s = [] <-> all_white_space s = true.
Proof.
  induction s as [|c s IH]; simpl; [tauto|].
  destruct (is_white_space c); simpl; [exact IH | split; discriminate].
Qed.

Lemma trimEnd_empty (s : jsstring) :
  trimEnd s = [] <-> all_white_space s = true.
Proof.
  induction s as [|c s IH]; simpl; [tauto|].
  destruct (trimEnd s) eqn:E.
  - destruct (is_white_space c); simpl; [tauto | split; discriminate].
  - split; [discriminate|].
    intros [_ H]%andb_prop. apply IH in H. discriminate.
Qed.

Lemma trimStart_head (s : jsstring) (c : code_unit) (t : jsstring) :
  trimStart s = c :: t -> is_white_space c = false.
Proof.
  induction s as [|d s IH]; simpl; [discriminate|].
  destruct (is_white_space d) eqn:E; [exact IH | congruence].
Qed.

Lemma trim_empty (s : jsstring) :
  trim s = [] <-> all_white_space s = true.
Proof.
  unfold trim. rewrite trimEnd_empty. split.
  - intros H. apply trimStart_empty.
    destruct (trimStart s) as [|c t] eqn:E; [reflexivity|].
    apply trimStart_head in E. simpl in H. rewrite E in H. discriminate.
  - intros H. apply trimStart_empty in H. rewrite H. reflexivity.
Qed.

End StringFacts.

(** ** The regular expressions *)

Section RegexFacts.
Import JsString Regex.

Lemma append_assoc (a b c : jsstring) : (a ++ b) ++ c = a ++ (b ++ c).
Proof.
  induction a as [|x a IH]; [reflexivity|].
  change (x :: ((a ++ b) ++ c) = x :: (a ++ b ++ c)).
  rewrite IH. reflexivity.
Qed.

Lemma exec_keywords_Some_in (kws : list jsstring) (url kw rest : jsstring) :
  exec_keywords kws url = Some (kw, rest) ->
  kw ∈ kws /\ url = kw ++ js "?" ++ rest.
Proof.
  induction kws as [|k kws IH]; cbn [exec_keywords]; [discriminate|].
  destruct (strip_prefix (k ++ js "?") url) as [r|] eqn:E.
  - intros [= <- <-]. apply strip_prefix_Some in E.
    rewrite append_assoc in E. split; [left | exact E].
  - intros H. destruct (IH H) as [Hin Hurl]. split; [right; exact Hin | exact Hurl].
Qed.

Lemma exec_keywords_Some (url kw rest : jsstring) :
  exec_keywords keywords url = Some (kw, rest) ->
  kw ∈ keywords /\ url = kw ++ js "?" ++ rest.
Proof. apply exec_keywords_Some_in. Qed.

Lemma exec_keywords_app (kw rest : jsstring) :
  kw ∈ keywords -> exec_keywords keywords (kw ++ js "?" ++ rest) = Some (kw, rest).
Proof.
  unfold keywords. rewrite !elem_of_cons, elem_of_nil.
  intros [->|[->|[->|[->|[]]]]]; reflexivity.
Qed.

Lemma replace_first_match (alts : list (list atom)) (s r : jsstring) :
  match_alt alts s = Some r -> replace_first alts s = r.
Proof. intros H. destruct s; simpl; rewrite H; reflexivity. Qed.

(** The leftmost match is the one removed: if no match starts inside [a]
    and one starts right after it, the text after [a] loses the match. *)
Lemma replace_first_leftmost (alts : list (list atom)) (a b r : jsstring) :
  (forall a1 a2, a = a1 ++ a2 -> a2 <> [] ->
                 match_alt alts (a2 ++ b) = None) ->
  match_alt alts b = Some r ->
  replace_first alts (a ++ b) = a ++ r.
Proof.
  induction a as [|c a IH]; intros Hno Hb.
  - apply replace_first_match, Hb.
  - pose proof (Hno [] (c :: a) eq_refl) as H0.
    cbn [app] in H0 |- *. cbn [replace_first]. rewrite H0 by discriminate.
    f_equal. apply IH; [|exact Hb].
    intros a1 a2 -> Hne. apply (Hno (c :: a1) a2); [reflexivity | exact Hne].
Qed.

(** No match anywhere: the string is unchanged. *)
Lemma replace_first_none (alts : list (list atom)) (s : jsstring) :
  (forall s1 s2, s = s1 ++ s2 -> match_alt alts s2 = None) ->
  replace_first alts s = s.
Proof.
  induction s as [|c s IH]; intros Hno.
  - cbn [replace_first]. rewrite (Hno [] [] eq_refl). reflexivity.
  - cbn [replace_first]. rewrite (Hno [] (c :: s) eq_refl).
    f_equal. apply IH. intros s1 s2 ->. apply (Hno (c :: s1) s2). reflexivity.
Qed.

Lemma scheme_custom (r : jsstring) :
  match_alt scheme_regex ((js "rocketchat://") ++ r) = Some r.
Proof. reflexivity. Qed.

Lemma scheme_redirect (c1 c2 : code_unit) (r : jsstring) :
  is_line_terminator c1 = false -> is_line_terminator c2 = false ->
  match_alt scheme_regex
    ((js "https://go") ++ c1 :: ((js "rocket") ++ c2 :: ((js "chat/") ++ r))) = Some r.
Proof.
  intros H1 H2. cbv -[is_line_terminator]. rewrite H1, H2. reflexivity.
Qed.

Lemma replace_first_test_false (alts : list (list atom)) (s : jsstring) :
  test alts s = false -> replace_first alts s = s.
Proof.
  induction s as [|c s IH]; cbn [test replace_first].
  - destruct (match_alt alts []); [discriminate | reflexivity].
  - destruct (match_alt alts (c :: s)); [discriminate|].
    intros H. rewrite (IH H). reflexivity.
Qed.

Lemma match_seq_app (p q : list atom) (s : jsstring) :
  match_seq (p ++ q) s =
  match match_seq p s with
  | Some r => match_seq q r
  | None => None
  end.
Proof.
  revert s. induction p as [|a p IH]; intros s; [reflexivity|].
  destruct s as [|c s]; cbn [app match_seq]; [reflexivity|].
  destruct (atom_matches a c); [apply IH | reflexivity].
Qed.

Lemma includes_false_head (p s : jsstring) :
  includes p s = false -> match_seq (lits p) s = None.
Proof.
  unfold includes. destruct s as [|c s]; cbn [test match_alt];
    destruct (match_seq (lits p) _); congruence.
Qed.

Lemma includes_false_tail (p : jsstring) (c : code_unit) (s : jsstring) :
  includes p (c :: s) = false -> includes p s = false.
Proof.
  unfold includes. cbn [test match_alt].
  destruct (match_seq (lits p) (c :: s)); [discriminate | trivial].
Qed.

(** A string with neither [rocketchat://] nor [https://go] in it has no
    match of the scheme pattern. *)
Lemma test_scheme_false (s : jsstring) :
  includes (js "rocketchat://") s = false ->
  includes (js "https://go") s = false ->
  test scheme_regex s = false.
Proof.
  assert (Hhead : forall s, includes (js "rocketchat://") s = false ->
                            includes (js "https://go") s = false ->
                            match_alt scheme_regex s = None).
  { intros t H1 H2. unfold scheme_regex. cbn [match_alt].
    rewrite (includes_false_head _ _ H1), match_seq_app, (includes_false_head _ _ H2).
    reflexivity. }
  induction s as [|c s IH]; intros H1 H2; cbn [test]; rewrite (Hhead _ H1 H2).
  - reflexivity.
  - apply IH; eapply includes_false_tail; eassumption.
Qed.

End RegexFacts.

(** ** The deep-link parser *)

Section ParserFacts.
Import JsString Regex DeepLink.
Context {V E : Type}.
Variable parseQuery : jsstring -> completion E (option (gmap jsstring (value V))).

Lemma eqb_eq (s t : jsstring) : eqb s t = true <-> s = t.
Proof.
  revert t. induction s as [|a s IH]; intros [|b t]; cbn [eqb];
    try (split; [discriminate | intros [=]]); [tauto|].
  rewrite andb_true_iff, N.eqb_eq, IH. split; [intros [-> ->]; reflexivity|].
  intros [= -> ->]. split; reflexivity.
Qed.

(** The parser, read off the anchored match on the stripped URL. *)
Lemma parseDeepLinking_exec (url : jsstring) :
  parseDeepLinking parseQuery (Some url) =
  match exec_keywords keywords (replace_first scheme_regex url) with
  | Some (kw, rest) =>
      if truthy (trim rest)
      then match parseQuery (trim rest) with
           | Throw e => Throw e
           | Return parsedQuery =>
               Return (Some (<[js "type" := if eqb kw (js "shareextension") then Str kw
                                            else query_type parsedQuery]>
                               (spread parsedQuery)))
           end
      else Return None
  | None => Return None
  end.
Proof.
  unfold parseDeepLinking, keyword_match, keyword_replace.
  destruct url as [|c url]; [reflexivity|].
  cbn [truthy].
  destruct (exec_keywords keywords (replace_first scheme_regex (c :: url)))
    as [[kw rest]|]; reflexivity.
Qed.

Lemma keyword_match_replace (url kw : jsstring) :
  keyword_match url = Some kw ->
  exec_keywords keywords url = Some (kw, keyword_replace url).
Proof.
  unfold keyword_match, keyword_replace.
  destruct (exec_keywords keywords url) as [[k r]|]; cbn; congruence.
Qed.

Lemma parse_null_of_empty_query (url kw rest : jsstring) :
  exec_keywords keywords (replace_first scheme_regex url) = Some (kw, rest) ->
  trim rest = [] ->
  parseDeepLinking parseQuery (Some url) = Return None.
Proof. intros He Ht. rewrite parseDeepLinking_exec, He, Ht. reflexivity. Qed.

Lemma parse_intent_of_query (url kw rest : jsstring)
    (parsedQuery : option (gmap jsstring (value V))) :
  exec_keywords keywords (replace_first scheme_regex url) = Some (kw, rest) ->
  trim rest <> [] ->
  parseQuery (trim rest) = Return parsedQuery ->
  parseDeepLinking parseQuery (Some url) =
  Return (Some (<[js "type" := if eqb kw (js "shareextension") then Str kw
                               else query_type parsedQuery]>
                  (spread parsedQuery))).
Proof.
  intros He Ht Hq. rewrite parseDeepLinking_exec, He, Hq.
  destruct (trim rest); [contradiction | reflexivity].
Qed.

Lemma parse_throws_of_query (url kw rest : jsstring) (e : E) :
  exec_keywords keywords (replace_first scheme_regex url) = Some (kw, rest) ->
  trim rest <> [] ->
  parseQuery (trim rest) = Throw e ->
  parseDeepLinking parseQuery (Some url) = Throw e.
Proof.
  intros He Ht Hq. rewrite parseDeepLinking_exec, He, Hq.
  destruct (trim rest); [contradiction | reflexivity].
Qed.

Lemma parse_Some_inv (url : jsstring) (intent : gmap jsstring (value V)) :
  parseDeepLinking parseQuery (Some url) = Return (Some intent) ->
  exists kw rest parsedQuery,
    exec_keywords keywords (replace_first scheme_regex url) = Some (kw, rest) /\
    trim rest <> [] /\
    parseQuery (trim rest) = Return parsedQuery /\
    intent = <[js "type" := if eqb kw (js "shareextension") then Str kw
                            else query_type parsedQuery]>
               (spread parsedQuery).
Proof.
  rewrite parseDeepLinking_exec.
  destruct (exec_keywords keywords (replace_first scheme_regex url))
    as [[kw rest]|]; [|discriminate].
  destruct (trim rest) eqn:Et; [discriminate|]. cbn [truthy]. rewrite <- Et.
  destruct (parseQuery (trim rest)) as [pq|e] eqn:Eq; [|discriminate].
  intros [= <-]. exists kw, rest, pq.
  split; [reflexivity|]. split; [rewrite Et; discriminate|].
  split; [exact Eq | reflexivity].
Qed.

Lemma parse_Throw_inv (url : jsstring) (e : E) :
  parseDeepLinking parseQuery (Some url) = Throw e ->
  exists kw rest,
    exec_keywords keywords (replace_first scheme_regex url) = Some (kw, rest) /\
    trim rest <> [] /\
    parseQuery (trim rest) = Throw e.
Proof.
  rewrite parseDeepLinking_exec.
  destruct (exec_keywords keywords (replace_first scheme_regex url))
    as [[kw rest]|]; [|discriminate].
  destruct (trim rest) eqn:Et; [discriminate|]. cbn [truthy]. rewrite <- Et.
  destruct (parseQuery (trim rest)) as [pq|e'] eqn:Eq; [discriminate|].
  intros [= <-]. exists kw, rest.
  split; [reflexivity|]. split; [rewrite Et; discriminate | exact Eq].
Qed.

Lemma keyword_not_share (kw : jsstring) :
  kw ∈ [js "room"; js "auth"; js "invite"] -> eqb kw (js "shareextension") = false.
Proof.
  rewrite !elem_of_cons, elem_of_nil. intros [->|[->|[->|[]]]]; reflexivity.
Qed.

Lemma exec_of_shape (url kw rest : jsstring) :
  kw ∈ keywords ->
  replace_first scheme_regex url = kw ++ js "?" ++ rest ->
  exec_keywords keywords (replace_first scheme_regex url) = Some (kw, rest).
Proof. intros Hkw ->. apply exec_keywords_app, Hkw. Qed.

Lemma trim_nonempty (s : jsstring) :
  all_white_space s = false -> trim s <> [].
Proof. intros H Ht. apply trim_empty in Ht. congruence. Qed.

Lemma keyword_cases (kw : jsstring) :
  kw ∈ keywords -> kw <> js "shareextension" -> kw ∈ [js "room"; js "auth"; js "invite"].
Proof.
  unfold keywords. rewrite !elem_of_cons, elem_of_nil.
  intros [->|[->|[->|[->|[]]]]] Hne;
    [left | right; left | right; right; left | contradiction]; reflexivity.
Qed.

(** C5: when the URL, once the scheme is removed, is one of the four
    keywords, a [?] and nothing but white space, [parseDeepLinking]
    returns [null]. *)
Theorem parse_empty_query_is_null (url kw rest : jsstring) :
  kw ∈ keywords ->
  replace_first scheme_regex url = kw ++ js "?" ++ rest ->
  all_white_space rest = true ->
  parseDeepLinking parseQuery (Some url) = Return None.
Proof.
  intros Hkw Hurl Hws.
  pose proof (exec_of_shape _ _ _ Hkw Hurl) as He.
  apply (parse_null_of_empty_query url kw rest He).
  apply trim_empty, Hws.
Qed.

(** C10: on a successful parse the intent is the parsed query itself with
    a [type] field added.  For [room], [auth] and [invite] that field is
    [parsedQuery?.type], so the intent does not depend on the keyword, and
    when the query has no [type] key the intent's [type] is [undefined]. *)
Theorem parse_success_is_query_with_type (url kw rest : jsstring)
    (parsedQuery : option (gmap jsstring (value V))) :
  kw ∈ keywords ->
  replace_first scheme_regex url = kw ++ js "?" ++ rest ->
  all_white_space rest = false ->
  parseQuery (trim rest) = Return parsedQuery ->
  exists intent,
    parseDeepLinking parseQuery (Some url) = Return (Some intent) /\
    (forall k, k <> js "type" -> intent !! k = spread parsedQuery !! k) /\
    is_Some (intent !! js "type") /\
    (kw <> js "shareextension" ->
     intent = <[js "type" := query_type parsedQuery]> (spread parsedQuery) /\
     (spread parsedQuery !! js "type" = None ->
      intent !! js "type" = Some Undefined)).
Proof.
  intros Hkw Hurl Hws Hq.
  pose proof (exec_of_shape _ _ _ Hkw Hurl) as He.
  pose proof (trim_nonempty _ Hws) as Ht.
  eexists. split; [apply (parse_intent_of_query _ _ _ _ He Ht Hq)|].
  split; [|split].
  - intros k Hk. rewrite lookup_insert_ne by congruence. reflexivity.
  - rewrite lookup_insert_eq. eauto.
  - intros Hne. rewrite (keyword_not_share _ (keyword_cases _ Hkw Hne)).
    split; [reflexivity|].
    intros Hnone. rewrite lookup_insert_eq. f_equal.
    unfold query_type, spread in *.
    destruct parsedQuery as [q|]; [|reflexivity].
    cbn in Hnone. rewrite Hnone. reflexivity.
Qed.

(** C2 (amended): for the keyword [shareextension] the intent's [type] is
    the matched keyword itself, the lower-case string [shareextension],
    whatever [type] the query carries; for [room], [auth] and [invite] it
    is the [type] the parsed query produced. *)
Theorem parse_type_field (url kw rest : jsstring) (intent : gmap jsstring (value V)) :
  kw ∈ keywords ->
  replace_first scheme_regex url = kw ++ js "?" ++ rest ->
  parseDeepLinking parseQuery (Some url) = Return (Some intent) ->
  (kw = js "shareextension" -> intent !! js "type" = Some (Str (js "shareextension"))) /\
  (kw <> js "shareextension" ->
   exists parsedQuery,
     parseQuery (trim rest) = Return parsedQuery /\
     intent !! js "type" = Some (query_type parsedQuery)).
Proof.
  intros Hkw Hurl Hp.
  pose proof (exec_of_shape _ _ _ Hkw Hurl) as He.
  apply parse_Some_inv in Hp as (kw' & rest' & pq & He' & _ & Hq & ->).
  rewrite He in He'. injection He' as <- <-.
  rewrite lookup_insert_eq. split.
  - intros ->. reflexivity.
  - intros Hne. exists pq. split; [exact Hq|].
    rewrite (keyword_not_share _ (keyword_cases _ Hkw Hne)). reflexivity.
Qed.

(** C4 (amended): every call returns [null], returns an intent with a
    [type] field, or throws what [parseQuery] threw.  It returns [null]
    exactly when the input is undefined or empty, or the URL, once the
    scheme is removed, is not a keyword, a [?] and a query that has more
    than white space.  It throws exactly when [parseQuery] throws on that
    query, trimmed.  The scheme is optional: a URL with neither scheme in
    it that is a keyword, a [?] and such a query is parsed, not rejected. *)
Theorem parse_null_iff (url : option jsstring) :
  (parseDeepLinking parseQuery url = Return None \/
   (exists intent, parseDeepLinking parseQuery url = Return (Some intent) /\
                   is_Some (intent !! js "type")) \/
   (exists e, parseDeepLinking parseQuery url = Throw e)) /\
  (parseDeepLinking parseQuery url = Return None <->
   url = None \/ url = Some [] \/
   exists u, url = Some u /\
     forall kw rest,
       kw ∈ keywords ->
       replace_first scheme_regex u = kw ++ js "?" ++ rest ->
       all_white_space rest = true) /\
  (forall e,
     parseDeepLinking parseQuery url = Throw e <->
     exists u kw rest,
       url = Some u /\ kw ∈ keywords /\
       replace_first scheme_regex u = kw ++ js "?" ++ rest /\
       all_white_space rest = false /\
       parseQuery (trim rest) = Throw e) /\
  (forall kw rest parsedQuery,
     kw ∈ keywords ->
     includes (js "rocketchat://") (kw ++ js "?" ++ rest) = false ->
     includes (js "https://go") (kw ++ js "?" ++ rest) = false ->
     all_white_space rest = false ->
     parseQuery (trim rest) = Return parsedQuery ->
     parseDeepLinking parseQuery (Some (kw ++ js "?" ++ rest)) =
     Return (Some (<[js "type" := if eqb kw (js "shareextension") then Str kw
                                  else query_type parsedQuery]>
                     (spread parsedQuery)))).
Proof.
  split; [|split; [|split]].
  - destruct (parseDeepLinking parseQuery url) as [[intent|]|e] eqn:Ep.
    + right; left. exists intent. split; [reflexivity|].
      destruct url as [u|]; [|discriminate].
      apply parse_Some_inv in Ep as (kw & rest & pq & _ & _ & _ & ->).
      rewrite lookup_insert_eq. eauto.
    + left. reflexivity.
    + right; right. eauto.
  - destruct url as [u|]; [|split; [left; reflexivity | reflexivity]].
    rewrite parseDeepLinking_exec.
    destruct (exec_keywords keywords (replace_first scheme_regex u))
      as [[kw0 rest0]|] eqn:He.
    + pose proof (exec_keywords_Some _ _ _ He) as [Hkw0 Hs0].
      destruct (trim rest0) as [|c t] eqn:Et; cbn [truthy].
      * split; [|reflexivity]. intros _. right; right. exists u. split; [reflexivity|].
        intros kw rest Hkw Hs. pose proof (exec_of_shape _ _ _ Hkw Hs) as He'.
        rewrite He in He'. injection He' as <- <-. apply trim_empty, Et.
      * split.
        -- destruct (parseQuery (c :: t)); discriminate.
        -- intros [H|[H|(u' & [= <-] & H)]]; [discriminate| |].
           ++ injection H as ->. discriminate He.
           ++ apply (H kw0 rest0 Hkw0) in Hs0. apply trim_empty in Hs0. congruence.
    + split; [|reflexivity]. intros _. right; right. exists u. split; [reflexivity|].
      intros kw rest Hkw Hs. pose proof (exec_of_shape _ _ _ Hkw Hs) as He'. congruence.
  - intros e. split.
    + destruct url as [u|]; [|discriminate].
      intros (kw & rest & He & Ht & Hq)%parse_Throw_inv.
      pose proof (exec_keywords_Some _ _ _ He) as [Hkw Hs].
      exists u, kw, rest. repeat split; try assumption.
      destruct (all_white_space rest) eqn:Hws; [|reflexivity].
      apply trim_empty in Hws. contradiction.
    + intros (u & kw & rest & -> & Hkw & Hs & Hws & Hq).
      apply (parse_throws_of_query u kw rest e (exec_of_shape _ _ _ Hkw Hs)
               (trim_nonempty _ Hws) Hq).
  - intros kw rest pq Hkw H1 H2 Hws Hq.
    apply (parse_intent_of_query _ kw rest pq); [|apply trim_nonempty, Hws | exact Hq].
    rewrite (replace_first_test_false _ _ (test_scheme_false _ H1 H2)).
    apply exec_keywords_app, Hkw.
Qed.

End ParserFacts.

(** C6 (amended): the scheme is removed at the leftmost place it occurs,
    which need not be the start: [rocketchat://] or
    [https://go.rocket.chat/] at the start is stripped; either of them
    further on is removed as well when no match starts before it; a URL
    that contains neither [rocketchat://] nor [https://go] reaches the
    keyword match unchanged. *)
Theorem scheme_removed_at_leftmost_match :
  (forall r, Regex.replace_first Regex.scheme_regex ((js "rocketchat://") ++ r) = r) /\
  (forall r, Regex.replace_first Regex.scheme_regex ((js "https://go.rocket.chat/") ++ r) = r) /\
  (forall p a r,
     p ∈ [js "rocketchat://"; js "https://go.rocket.chat/"] ->
     (forall a1 a2, a = a1 ++ a2 -> a2 <> [] ->
                    Regex.match_alt Regex.scheme_regex (a2 ++ p ++ r) = None) ->
     Regex.replace_first Regex.scheme_regex (a ++ p ++ r) = a ++ r) /\
  (forall url,
     Regex.includes (js "rocketchat://") url = false ->
     Regex.includes (js "https://go") url = false ->
     Regex.replace_first Regex.scheme_regex url = url).
Proof.
  split; [|split; [|split]].
  - intros r. apply replace_first_match, scheme_custom.
  - intros r. apply replace_first_match. reflexivity.
  - intros p a r Hp Hno. apply replace_first_leftmost; [exact Hno|].
    revert Hp. rewrite !elem_of_cons, elem_of_nil. intros [->|[->|[]]]; reflexivity.
  - intros url H1 H2. apply replace_first_test_false, test_scheme_false; assumption.
Qed.

(** The four cases of C6 (amended) on concrete URLs. *)
Lemma scheme_removed_at_leftmost_match_witness :
  Regex.replace_first Regex.scheme_regex (js "rocketchat://room?rid=1") = js "room?rid=1" /\
  Regex.replace_first Regex.scheme_regex (js "https://go.rocket.chat/auth?token=t") = js "auth?token=t" /\
  Regex.replace_first Regex.scheme_regex (js "xrocketchat://room?rid=1") = js "xroom?rid=1" /\
  Regex.replace_first Regex.scheme_regex (js "room?rid=1") = js "room?rid=1".
Proof.
  destruct scheme_removed_at_leftmost_match as (H1 & H2 & H3 & H4).
  split; [|split; [|split]].
  - apply (H1 (js "room?rid=1")).
  - apply (H2 (js "auth?token=t")).
  - apply (H3 (js "rocketchat://") (js "x") (js "room?rid=1")); [left|].
    intros a1 a2 E Hne. destruct a1 as [|x1 [|x2 a1]]; cbv in E.
    + subst a2. reflexivity.
    + injection E as _ E. subst a2. contradiction.
    + discriminate E.
  - apply (H4 (js "room?rid=1")); reflexivity.
Defined.

(** C6 as stated fails: this URL does not begin with a scheme, yet the
    scheme inside it is removed, and the keyword match, which fails on the
    URL as given, succeeds on what is left. *)
Lemma scheme_elsewhere_counterexample :
  let url := js "rorocketchat://om?rid=1" in
  Regex.match_alt Regex.scheme_regex url = None /\
  Regex.keyword_match url = None /\
  Regex.replace_first Regex.scheme_regex url = js "room?rid=1" /\
  Regex.replace_first Regex.scheme_regex url <> url /\
  DeepLink.parseDeepLinking (DeepLink.parseQuery_model (E:=unit)) (Some url) =
    Return (Some (<[js "type" := DeepLink.Undefined]> {[js "rid" := DeepLink.Str (js "1")]})).
Proof.
  cbv zeta. split; [reflexivity|]. split; [reflexivity|]. split; [reflexivity|].
  split; [vm_compute; discriminate | vm_compute; reflexivity].
Qed.

(** C5 on [rocketchat://invite?] followed by a space and an em space
    (U+2003). *)
Lemma parse_empty_query_is_null_witness :
  js "invite" ∈ Regex.keywords /\
  Regex.replace_first Regex.scheme_regex (js "rocketchat://invite?" ++ [32; 8195]%N)
    = js "invite" ++ js "?" ++ [32; 8195]%N /\
  JsString.all_white_space [32; 8195]%N = true /\
  DeepLink.parseDeepLinking (DeepLink.parseQuery_model (E:=unit))
    (Some (js "rocketchat://invite?" ++ [32; 8195]%N)) = Return None.
Proof.
  assert (Hkw : js "invite" ∈ Regex.keywords) by (right; right; left).
  split; [exact Hkw|]. split; [reflexivity|]. split; [reflexivity|].
  apply (parse_empty_query_is_null (DeepLink.parseQuery_model (E:=unit))
           (js "rocketchat://invite?" ++ [32; 8195]%N) (js "invite") [32; 8195]%N Hkw);
    reflexivity.
Defined.

(** C10 on [rocketchat://auth?host=h]: the intent is the query with an
    undefined [type]; nothing in it says [auth]. *)
Lemma parse_success_is_query_with_type_witness :
  exists intent,
    DeepLink.parseDeepLinking (DeepLink.parseQuery_model (E:=unit))
      (Some (js "rocketchat://auth?host=h")) = Return (Some intent) /\
    intent !! js "host" = Some (DeepLink.Str (js "h")) /\
    intent !! js "type" = Some DeepLink.Undefined.
Proof.
  destruct (parse_success_is_query_with_type (DeepLink.parseQuery_model (E:=unit))
              (js "rocketchat://auth?host=h") (js "auth") (js "host=h")
              (Some {[js "host" := DeepLink.Str (js "h")]}))
    as (intent & Hp & Hk & _ & Hkw).
  - right; left.
  - reflexivity.
  - reflexivity.
  - vm_compute. reflexivity.
  - exists intent. split; [exact Hp|]. split.
    + rewrite Hk by (vm_compute; discriminate). vm_compute. reflexivity.
    + apply Hkw; [vm_compute; discriminate | vm_compute; reflexivity].
Defined.

(** C2 (amended) on the two URLs of the spec's examples. *)
Lemma parse_type_field_witness :
  (forall intent,
     DeepLink.parseDeepLinking (DeepLink.parseQuery_model (E:=unit))
       (Some (js "rocketchat://shareextension?type=direct")) = Return (Some intent) ->
     intent !! js "type" = Some (DeepLink.Str (js "shareextension"))) /\
  (forall intent,
     DeepLink.parseDeepLinking (DeepLink.parseQuery_model (E:=unit))
       (Some (js "rocketchat://room?type=direct")) = Return (Some intent) ->
     intent !! js "type" = Some (DeepLink.Str (js "direct"))).
Proof.
  split; intros intent Hp.
  - apply (parse_type_field (DeepLink.parseQuery_model (E:=unit))
             (js "rocketchat://shareextension?type=direct") (js "shareextension")
             (js "type=direct") intent);
      [right; right; right; left | reflexivity | exact Hp | reflexivity].
  - assert (Hkw : js "room" ∈ Regex.keywords) by left.
    destruct (proj2 (parse_type_field (DeepLink.parseQuery_model (E:=unit))
                       (js "rocketchat://room?type=direct") (js "room")
                       (js "type=direct") intent Hkw eq_refl Hp))
      as (pq & Hq & ->); [vm_compute; discriminate|].
    vm_compute in Hq. injection Hq as <-. vm_compute. reflexivity.
Defined.

(** C2 as stated fails: the [type] of a [shareextension] intent is the
    keyword in lower case, not [shareExtension]. *)
Lemma shareextension_kind_counterexample :
  let url := js "rocketchat://shareextension?type=direct" in
  Regex.keyword_match (Regex.replace_first Regex.scheme_regex url) = Some (js "shareextension") /\
  exists intent,
    DeepLink.parseDeepLinking (DeepLink.parseQuery_model (E:=unit)) (Some url)
      = Return (Some intent) /\
    intent !! js "type" = Some (DeepLink.Str (js "shareextension")) /\
    intent !! js "type" <> Some (DeepLink.Str (js "shareExtension")).
Proof.
  cbv zeta. split; [reflexivity|].
  eexists. split; [reflexivity|]. split; [vm_compute; reflexivity|].
  vm_compute. discriminate.
Qed.

(** C4 as stated fails twice: a URL with no scheme anywhere is parsed to an
    intent when it starts with a keyword and a [?]; and a call throws when
    [parseQuery] does. *)
Lemma no_scheme_counterexample :
  let url := js "room?rid=1" in
  Regex.test Regex.scheme_regex url = false /\
  Regex.replace_first Regex.scheme_regex url = url /\
  DeepLink.parseDeepLinking (DeepLink.parseQuery_model (E:=unit)) (Some url) =
    Return (Some (<[js "type" := DeepLink.Undefined]> {[js "rid" := DeepLink.Str (js "1")]})) /\
  DeepLink.parseDeepLinking (DeepLink.parseQuery_model (E:=unit)) (Some url) <> Return None /\
  DeepLink.parseDeepLinking (V:=Empty_set) (fun _ => Throw tt)
    (Some (js "rocketchat://room?rid=1")) = Throw tt.
Proof.
  cbv zeta. split; [reflexivity|]. split; [reflexivity|].
  split; [vm_compute; reflexivity|]. split; [vm_compute; discriminate | reflexivity].
Qed.

(** ** The layout-mode resolver *)

Section LayoutFacts.
Import Number Layout.
Variable MIN_WIDTH_MASTER_DETAIL_LAYOUT : Q.

Lemma gt_Finite (x y : Q) : gt (Finite x) (Finite y) = true <-> (y < x)%Q.
Proof.
  cbn [gt]. rewrite negb_true_iff, <- not_true_iff_false, Qle_bool_iff.
  split; [apply Qnot_le_lt | apply Qlt_not_le].
Qed.

(** C3: on a device that is not a tablet the resolver is [false] for
    every width; on a tablet it is [width > MIN_WIDTH_MASTER_DETAIL_LAYOUT],
    which is [false] at the threshold and [true] one above it.  The
    resolver is a function of its inputs alone. *)
Theorem getMasterDetail_threshold :
  (forall width, getMasterDetail false MIN_WIDTH_MASTER_DETAIL_LAYOUT width = false) /\
  (forall width, getMasterDetail true MIN_WIDTH_MASTER_DETAIL_LAYOUT width
                 = gt width (Finite MIN_WIDTH_MASTER_DETAIL_LAYOUT)) /\
  (forall q, getMasterDetail true MIN_WIDTH_MASTER_DETAIL_LAYOUT (Finite q) = true
             <-> (MIN_WIDTH_MASTER_DETAIL_LAYOUT < q)%Q) /\
  getMasterDetail true MIN_WIDTH_MASTER_DETAIL_LAYOUT NaN = false /\
  getMasterDetail true MIN_WIDTH_MASTER_DETAIL_LAYOUT
    (Finite MIN_WIDTH_MASTER_DETAIL_LAYOUT) = false /\
  getMasterDetail true MIN_WIDTH_MASTER_DETAIL_LAYOUT
    (Finite (MIN_WIDTH_MASTER_DETAIL_LAYOUT + 1)) = true.
Proof.
  split; [reflexivity|]. split; [reflexivity|]. split; [|split; [reflexivity|split]].
  - intros q. apply gt_Finite.
  - apply not_true_iff_false. intros H. apply gt_Finite in H.
    exact (Qlt_irrefl _ H).
  - apply gt_Finite.
    rewrite <- (Qplus_0_r MIN_WIDTH_MASTER_DETAIL_LAYOUT) at 1.
    apply Qplus_lt_r. reflexivity.
Qed.

End LayoutFacts.

(** ** The startup arbitration *)

Section StartupFacts.
Import DeepLink Effects Startup.
Context {V N E : Type}.
Variable parseQuery : jsstring -> completion E (option (gmap jsstring (value V))).

Lemma init_run (h : host N E) :
  init parseQuery h [] =
  match pendingNotification h with
  | Throw e => (Throw e, [Dispatch appInitLocalSettings; InitializePushNotifications])
  | Return (Some notification) =>
      (Return tt, [Dispatch appInitLocalSettings; InitializePushNotifications;
                   OnNotification notification])
  | Return None =>
      match initialNotification h with
      | Throw e =>
          (Throw e, [Dispatch appInitLocalSettings; InitializePushNotifications;
                     GetInitialNotification])
      | Return _ =>
          match initialURL h with
          | Throw e =>
              (Throw e, [Dispatch appInitLocalSettings; InitializePushNotifications;
                         GetInitialNotification; GetInitialURL])
          | Return deepLinking =>
              match parseDeepLinking parseQuery deepLinking with
              | Throw e =>
                  (Throw e, [Dispatch appInitLocalSettings; InitializePushNotifications;
                             GetInitialNotification; GetInitialURL])
              | Return (Some intent) =>
                  (Return tt, [Dispatch appInitLocalSettings; InitializePushNotifications;
                               GetInitialNotification; GetInitialURL;
                               Dispatch (deepLinkingOpen intent)])
              | Return None =>
                  (Return tt, [Dispatch appInitLocalSettings; InitializePushNotifications;
                               GetInitialNotification; GetInitialURL; Dispatch appInit])
              end
          end
      end
  end.
Proof.
  unfold init, initializePushNotifications, getInitialURL, getInitialNotification,
    onNotification, dispatch, emit, await, lift, mbind, M_bind.
  cbn [app].
  destruct (pendingNotification h) as [[n|]|e]; try reflexivity.
  destruct (initialNotification h) as [[]|e]; try reflexivity.
  destruct (initialURL h) as [u|e]; try reflexivity.
  destruct (parseDeepLinking parseQuery u) as [[intent|]|e]; reflexivity.
Qed.

(** C1 (amended): when the promises [init] awaits resolve and
    [parseDeepLinking] returns, exactly one of the three ends of the
    arbitration is reached, in priority order: a pending push notification
    goes to [onNotification] and nothing else is dispatched; otherwise a
    URL that parses is dispatched with [deepLinkingOpen]; otherwise
    [appInit] is.  When a promise rejects or [parseQuery] throws, [init]
    stops there and reaches none of the three. *)
Theorem init_one_resolution_path (h : host N E) :
  length (List.filter terminal (trace_of (init parseQuery) h)) =
    match outcome_of (init parseQuery) h with
    | Return _ => 1
    | Throw _ => 0
    end /\
  match pendingNotification h with
  | Throw e =>
      outcome_of (init parseQuery) h = Throw e /\
      trace_of (init parseQuery) h =
      [Dispatch appInitLocalSettings; InitializePushNotifications]
  | Return (Some notification) =>
      outcome_of (init parseQuery) h = Return tt /\
      trace_of (init parseQuery) h =
      [Dispatch appInitLocalSettings; InitializePushNotifications;
       OnNotification notification]
  | Return None =>
      match initialNotification h, initialURL h with
      | Throw e, _ =>
          outcome_of (init parseQuery) h = Throw e /\
          trace_of (init parseQuery) h =
          [Dispatch appInitLocalSettings; InitializePushNotifications;
           GetInitialNotification]
      | Return _, Throw e =>
          outcome_of (init parseQuery) h = Throw e /\
          trace_of (init parseQuery) h =
          [Dispatch appInitLocalSettings; InitializePushNotifications;
           GetInitialNotification; GetInitialURL]
      | Return _, Return deepLinking =>
          match parseDeepLinking parseQuery deepLinking with
          | Throw e =>
              outcome_of (init parseQuery) h = Throw e /\
              trace_of (init parseQuery) h =
              [Dispatch appInitLocalSettings; InitializePushNotifications;
               GetInitialNotification; GetInitialURL]
          | Return (Some intent) =>
              outcome_of (init parseQuery) h = Return tt /\
              trace_of (init parseQuery) h =
              [Dispatch appInitLocalSettings; InitializePushNotifications;
               GetInitialNotification; GetInitialURL; Dispatch (deepLinkingOpen intent)]
          | Return None =>
              outcome_of (init parseQuery) h = Return tt /\
              trace_of (init parseQuery) h =
              [Dispatch appInitLocalSettings; InitializePushNotifications;
               GetInitialNotification; GetInitialURL; Dispatch appInit]
          end
      end
  end.
Proof.
  unfold trace_of, outcome_of. rewrite init_run.
  destruct (pendingNotification h) as [[n|]|e]; try (repeat split; reflexivity).
  destruct (initialNotification h) as [[]|e]; try (repeat split; reflexivity).
  destruct (initialURL h) as [u|e]; try (repeat split; reflexivity).
  destruct (parseDeepLinking parseQuery u) as [[intent|]|e]; repeat split; reflexivity.
Qed.

(** C9: [appInitLocalSettings] is the first thing [init] does, before the
    first query to the host, once, whichever path is taken afterwards and
    also when a query fails. *)
Theorem init_local_settings_first (h : host N E) :
  exists rest,
    trace_of (init parseQuery) h =
      Dispatch appInitLocalSettings :: InitializePushNotifications :: rest /\
    List.existsb is_appInitLocalSettings (InitializePushNotifications :: rest) = false /\
    length (List.filter terminal rest) <= 1.
Proof.
  unfold trace_of. rewrite init_run.
  destruct (pendingNotification h) as [[n|]|e];
    try (eexists; split; [reflexivity|]; split; [reflexivity | cbn; lia]).
  destruct (initialNotification h) as [[]|e];
    try (eexists; split; [reflexivity|]; split; [reflexivity | cbn; lia]).
  destruct (initialURL h) as [u|e];
    try (eexists; split; [reflexivity|]; split; [reflexivity | cbn; lia]).
  destruct (parseDeepLinking parseQuery u) as [[intent|]|e];
    eexists; (split; [reflexivity|]); split; try reflexivity; cbn; lia.
Qed.

End StartupFacts.


(** ** The debounced dimension handler *)

Section DebounceFacts.
Import Debounce.
Context {A : Type}.
Variable wait : nat.

Lemma run_pending_burst (events : list (nat * A)) (t0 : nat) (a0 : A) (horizon : nat) :
  burst_after wait t0 events ->
  run wait events horizon (Some {| deadline := t0 + wait; args := a0 |}) =
  if (last_input (t0, a0) events).1 + wait <=? horizon
  then [((last_input (t0, a0) events).1 + wait, (last_input (t0, a0) events).2)]
  else [].
Proof.
  revert t0 a0. induction events as [|[t a] events IH]; intros t0 a0 Hb.
  - cbn. destruct (t0 + wait <=? horizon); reflexivity.
  - destruct Hb as (Hle & Hlt & Hb).
    cbn [run advance deadline args last_input].
    destruct (Nat.leb_spec (t0 + wait) t) as [Hc|_]; [lia|].
    cbn [app]. unfold call. apply IH, Hb.
Qed.

Lemma run_burst (events : list (nat * A)) (t0 : nat) (a0 : A) (horizon : nat) :
  burst_after wait t0 events ->
  run wait ((t0, a0) :: events) horizon None =
  if (last_input (t0, a0) events).1 + wait <=? horizon
  then [((last_input (t0, a0) events).1 + wait, (last_input (t0, a0) events).2)]
  else [].
Proof. intros Hb. cbn [run advance app]. unfold call. apply run_pending_burst, Hb. Qed.

End DebounceFacts.

Section DimensionsFacts.
Import Number Layout Effects Startup Debounce Dimensions.
Context {V N E : Type}.
Variable isTablet : bool.
Variable MIN_WIDTH_MASTER_DETAIL_LAYOUT : Q.
Variable wait : nat.
Variable h : host N E.

(** C7: a burst of one or more dimension changes, each less than the
    window after the one before, leads to exactly one update, made one
    window after the last change and with the metrics of that change:
    one [setDimensions] and one [setMasterDetail].  Before that time no
    update is made. *)
Theorem onDimensionsChange_burst
    (t0 : nat) (w0 : IDimensions) (events : list (nat * IDimensions)) (horizon : nat) :
  burst_after wait t0 events ->
  onDimensionsChange (V:=V) isTablet MIN_WIDTH_MASTER_DETAIL_LAYOUT wait h
    ((t0, w0) :: events) horizon =
  let last := last_input (t0, w0) events in
  if last.1 + wait <=? horizon
  then [(last.1 + wait,
         [SetDimensions {| width := width last.2; height := height last.2;
                           scale := scale last.2; fontScale := fontScale last.2 |};
          Dispatch (setMasterDetailAction
                      (getMasterDetail isTablet MIN_WIDTH_MASTER_DETAIL_LAYOUT
                         (width last.2)))])]
  else [].
Proof.
  intros Hb. unfold onDimensionsChange. rewrite (run_burst wait _ _ _ _ Hb).
  cbv zeta. destruct (last_input (t0, w0) events) as [tl wl]. cbn [fst snd].
  destruct (tl + wait <=? horizon); reflexivity.
Qed.

End DimensionsFacts.

(** ** The theme subscription *)

Section ThemeFacts.
Import Theme.
Context {P : Type}.

Lemma remove_listener_single (handle : nat) (p : P) :
  remove_listener handle [(handle, p)] = [].
Proof.
  unfold remove_listener. rewrite filter_cons. cbn.
  destruct (decide (handle ≠ handle)); [contradiction | reflexivity].
Qed.

Lemma subscribeTheme_replaces (p : P) (st : theme P) :
  (exists handle q, listeners st = [(handle, q)] /\ themeListener st = Some handle) \/
  (listeners st = [] /\ themeListener st = None) ->
  listeners (subscribeTheme p st) = [(next_handle st, p)] /\
  themeListener (subscribeTheme p st) = Some (next_handle st).
Proof.
  destruct st as [ls nh tl]. cbn [listeners themeListener next_handle].
  intros [(handle & q & -> & ->)|[-> ->]]; unfold subscribeTheme, unsubscribeTheme;
    cbn [listeners themeListener next_handle].
  - rewrite remove_listener_single. split; reflexivity.
  - split; reflexivity.
Qed.

Lemma step_inv (r : root P) (e : lifecycle P) :
  subscription_inv r -> subscription_inv (step r e).
Proof.
  unfold subscription_inv. destruct r as [m st]. cbn.
  destruct e as [p|p|]; destruct m; cbn; intros H; try exact H.
  - destruct (subscribeTheme_replaces p st (or_intror H)) as [H1 H2]. eauto.
  - destruct (subscribeTheme_replaces p st (or_introl H)) as [H1 H2]. eauto.
  - destruct H as (handle & q & Hl & Ht). unfold unsubscribeTheme.
    rewrite Ht. cbn. rewrite Hl, remove_listener_single. split; reflexivity.
Qed.

Lemma run_inv (es : list (lifecycle P)) : subscription_inv (run es).
Proof.
  induction es as [|e es IH] using rev_ind.
  - cbn. split; reflexivity.
  - unfold run. rewrite foldl_snoc. apply step_inv, IH.
Qed.

Lemma run_snoc (es : list (lifecycle P)) (e : lifecycle P) :
  run (es ++ [e]) = step (run es) e.
Proof. apply foldl_snoc. Qed.

Lemma inv_facts (r : root P) :
  subscription_inv r ->
  live r <= 1 /\
  (mounted r = true -> length (change_event (subscription r)) = 1) /\
  (mounted r = false -> live r = 0 /\ themeListener (subscription r) = None) /\
  (forall p, mounted r = true ->
             change_event (subscription (step r (PreferencesChanged p))) = [p]) /\
  (forall p, mounted r = false ->
             change_event (subscription (step r (Mount p))) = [p]) /\
  (live (step r Unmount) = 0 /\
   themeListener (subscription (step r Unmount)) = None /\
   change_event (subscription (step r Unmount)) = []).
Proof.
  unfold subscription_inv, live, change_event.
  destruct r as [m st]. cbn [step mounted subscription].
  destruct m; cbn [mounted subscription]; intros Hinv.
  - destruct Hinv as (handle & q & Hl & Ht).
    split; [rewrite Hl; cbn; lia|].
    split; [intros _; rewrite Hl; reflexivity|].
    split; [discriminate|].
    split; [|split; [discriminate|]].
    + intros p _.
      destruct (subscribeTheme_replaces p st) as [H1 _]; [left; eauto|].
      rewrite H1. reflexivity.
    + unfold unsubscribeTheme. rewrite Ht. cbn [listeners themeListener].
      rewrite Hl, remove_listener_single. repeat split; reflexivity.
  - destruct Hinv as [Hl Ht].
    split; [rewrite Hl; cbn; lia|].
    split; [discriminate|].
    split; [intros _; rewrite Hl; split; [reflexivity | exact Ht]|].
    split; [discriminate|]. split.
    + intros p _.
      destruct (subscribeTheme_replaces p st) as [H1 _]; [right; eauto|].
      rewrite H1. reflexivity.
    + rewrite Hl, Ht. repeat split; reflexivity.
Qed.

(** C8: whatever the lifecycle of [Root] has been, at most one theme
    subscription is live.  While [Root] is mounted one preference-change
    event runs exactly one callback, the one of the latest subscription;
    after the unmount no subscription is left. *)
Theorem theme_subscription_at_most_one (es : list (lifecycle P)) :
  live (run es) <= 1 /\
  (mounted (run es) = true -> length (change_event (subscription (run es))) = 1) /\
  (mounted (run es) = false ->
   live (run es) = 0 /\ themeListener (subscription (run es)) = None) /\
  (forall p, mounted (run es) = true ->
             change_event (subscription (run (es ++ [PreferencesChanged p]))) = [p]) /\
  (forall p, mounted (run es) = false ->
             change_event (subscription (run (es ++ [Mount p]))) = [p]) /\
  (live (run (es ++ [Unmount])) = 0 /\
   themeListener (subscription (run (es ++ [Unmount]))) = None /\
   change_event (subscription (run (es ++ [Unmount]))) = []).
Proof.
  destruct (inv_facts (run es) (run_inv es)) as (H1 & H2 & H3 & H4 & H5 & H6).
  split; [exact H1|]. split; [exact H2|]. split; [exact H3|].
  split; [|split].
  - intros p Hm. rewrite run_snoc. apply H4, Hm.
  - intros p Hm. rewrite run_snoc. apply H5, Hm.
  - rewrite run_snoc. exact H6.
Qed.

End ThemeFacts.

(** ** Runs on concrete inputs *)

(** C3 with a threshold of 700. *)
Lemma getMasterDetail_threshold_witness :
  Layout.getMasterDetail false 700 (Number.Finite 9999) = false /\
  Layout.getMasterDetail true 700 (Number.Finite 700) = false /\
  Layout.getMasterDetail true 700 (Number.Finite 701) = true /\
  Layout.getMasterDetail true 700 (Number.Finite (1401 # 2)) = true.
Proof.
  destruct (getMasterDetail_threshold 700) as (H1 & _ & H3 & _ & H5 & H6).
  split; [apply H1|]. split; [exact H5|]. split; [exact H6|].
  apply H3. reflexivity.
Defined.

(** C4 (amended) on a URL whose path is not a keyword, on a URL without
    scheme, and with a [parseQuery] that throws. *)
Lemma parse_null_iff_witness :
  DeepLink.parseDeepLinking (DeepLink.parseQuery_model (E:=unit))
    (Some (js "rocketchat://settings?x=1")) = Return None /\
  DeepLink.parseDeepLinking (DeepLink.parseQuery_model (E:=unit)) (Some (js "room?rid=1")) =
    Return (Some (<[js "type" := DeepLink.Undefined]> {[js "rid" := DeepLink.Str (js "1")]})) /\
  DeepLink.parseDeepLinking (V:=Empty_set) (fun _ => Throw tt)
    (Some (js "rocketchat://room?rid=1")) = Throw tt.
Proof.
  split; [|split].
  - apply (proj1 (proj2 (parse_null_iff (DeepLink.parseQuery_model (E:=unit))
                           (Some (js "rocketchat://settings?x=1"))))).
    right; right. exists (js "rocketchat://settings?x=1"). split; [reflexivity|].
    intros kw rest Hkw Hs. exfalso. revert Hkw Hs. unfold Regex.keywords.
    rewrite !elem_of_cons, elem_of_nil.
    intros [->|[->|[->|[->|[]]]]] Hs; vm_compute in Hs; discriminate Hs.
  - destruct (parse_null_iff (DeepLink.parseQuery_model (E:=unit)) None) as (_ & _ & _ & H).
    change (js "room?rid=1") with (js "room" ++ js "?" ++ js "rid=1").
    rewrite (H (js "room") (js "rid=1") (Some {[js "rid" := DeepLink.Str (js "1")]}));
      [vm_compute; reflexivity | left | reflexivity | reflexivity | reflexivity
      | vm_compute; reflexivity].
  - destruct (parse_null_iff (V:=Empty_set) (fun _ => Throw tt)
                (Some (js "rocketchat://room?rid=1"))) as (_ & _ & H & _).
    apply H. exists (js "rocketchat://room?rid=1"), (js "room"), (js "rid=1").
    split; [reflexivity|]. split; [left|]. repeat split; reflexivity.
Defined.

(** C7 on a burst of three changes at times 0, 40 and 90 with a window
    of 100: one update, at time 190, with the metrics of the third. *)
Lemma onDimensionsChange_burst_witness :
  let w (x : Z) := {| Effects.width := Number.Finite (inject_Z x);
                      Effects.height := Number.Finite 1000;
                      Effects.scale := Number.Finite 2;
                      Effects.fontScale := Number.Finite 1 |} in
  let h := Effects.quiet_host in
  Debounce.burst_after 100 0 [(40, w 600%Z); (90, w 800%Z)] /\
  Dimensions.onDimensionsChange (V:=Empty_set) true 700 100 h
    [(0, w 500%Z); (40, w 600%Z); (90, w 800%Z)] 1000 =
  [(190, [Effects.SetDimensions (w 800%Z);
          Effects.Dispatch (Effects.setMasterDetailAction true)])].
Proof.
  cbv zeta. split; [cbn; lia|].
  apply (onDimensionsChange_burst (V:=Empty_set) (N:=unit) (E:=unit) true 700 100).
  cbn; lia.
Defined.

(** C8 on a mount followed by one change of preferences. *)
Lemma theme_subscription_at_most_one_witness :
  Theme.live (Theme.run [Theme.Mount 1; Theme.PreferencesChanged 2]) <= 1 /\
  Theme.change_event
    (Theme.subscription
       (Theme.run ([Theme.Mount 1; Theme.PreferencesChanged 2] ++ [Theme.PreferencesChanged 3])))
  = [3] /\
  Theme.live (Theme.run ([Theme.Mount 1; Theme.PreferencesChanged 2] ++ [Theme.Unmount])) = 0.
Proof.
  destruct (theme_subscription_at_most_one [Theme.Mount 1; Theme.PreferencesChanged 2])
    as (H1 & _ & _ & H4 & _ & H6 & _).
  split; [exact H1|]. split; [apply H4; reflexivity | exact H6].
Defined.

(** * Further properties *)

(** ** White space *)

Section TrimFacts.
Import JsString.

Lemma trimStart_ws_app (w s : jsstring) :
  all_white_space w = true -> trimStart (w ++ s) = trimStart s.
Proof.
  induction w as [|c w IH]; [reflexivity|].
  cbn [all_white_space app trimStart]. intros [Hc Hw]%andb_prop.
  rewrite Hc. apply IH, Hw.
Qed.

Lemma trimStart_app (q w : jsstring) :
  trimStart (q ++ w) =
  if all_white_space q then trimStart w else trimStart q ++ w.
Proof.
  induction q as [|c q IH]; [reflexivity|].
  cbn [app trimStart all_white_space].
  destruct (is_white_space c); [exact IH | reflexivity].
Qed.

Lemma trimEnd_app_ws (s w : jsstring) :
  all_white_space w = true -> trimEnd (s ++ w) = trimEnd s.
Proof.
  intros Hw. induction s as [|c s IH].
  - apply trimEnd_empty, Hw.
  - cbn [app trimEnd]. rewrite IH. reflexivity.
Qed.

Lemma trimEnd_head (c : code_unit) (s : jsstring) :
  is_white_space c = false -> trimEnd (c :: s) = c :: trimEnd s.
Proof.
  intros Hc. cbn [trimEnd]. destruct (trimEnd s); [rewrite Hc|]; reflexivity.
Qed.

Lemma trimEnd_idem (s : jsstring) : trimEnd (trimEnd s) = trimEnd s.
Proof.
  induction s as [|c s IH]; [reflexivity|].
  cbn [trimEnd]. destruct (trimEnd s) as [|d t] eqn:Et.
  - destruct (is_white_space c) eqn:Hc; [reflexivity|].
    cbn [trimEnd]. rewrite Hc. reflexivity.
  - change (trimEnd (c :: d :: t)) with
      (match trimEnd (d :: t) with
       | [] => if is_white_space c then [] else [c]
       | u => c :: u
       end).
    rewrite IH. reflexivity.
Qed.

Lemma trim_idem (s : jsstring) : trim (trim s) = trim s.
Proof.
  unfold trim. destruct (trimStart s) as [|c t] eqn:Es; [reflexivity|].
  pose proof (trimStart_head _ _ _ Es) as Hc.
  rewrite (trimEnd_head _ _ Hc). cbn [trimStart]. rewrite Hc.
  rewrite <- (trimEnd_head _ _ Hc). apply trimEnd_idem.
Qed.

Lemma trim_padded (w1 q w2 : jsstring) :
  all_white_space w1 = true -> all_white_space w2 = true ->
  trim (w1 ++ q ++ w2) = trim q.
Proof.
  intros H1 H2. unfold trim. rewrite (trimStart_ws_app _ _ H1), trimStart_app.
  destruct (all_white_space q) eqn:Hq.
  - apply trimStart_empty in H2. rewrite H2.
    apply trimStart_empty in Hq. rewrite Hq. reflexivity.
  - apply trimEnd_app_ws, H2.
Qed.

End TrimFacts.

(** ** More on the two regular expressions *)

Section RegexMore.
Import JsString Regex.

Lemma match_seq_lits (p s r : jsstring) :
  match_seq (lits p) s = Some r <-> s = p ++ r.
Proof.
  revert s. induction p as [|a p IH]; intros s; cbn [lits match_seq].
  - split; [intros [= ->]; reflexivity | intros ->; reflexivity].
  - destruct s as [|c s]; [split; discriminate|].
    cbn [app atom_matches].
    destruct (N.eqb_spec a c) as [->|Hne].
    + rewrite IH. split; [intros ->; reflexivity | intros [= ->]; reflexivity].
    + split; [discriminate | intros [= ? ?]; congruence].
Qed.

Lemma match_seq_Dot (q : list atom) (s r : jsstring) :
  match_seq (Dot :: q) s = Some r ->
  exists c s', s = c :: s' /\ match_seq q s' = Some r.
Proof.
  destruct s as [|c s]; cbn [match_seq]; [discriminate|].
  destruct (atom_matches Dot c); [|discriminate]. eauto.
Qed.

(** What a match of the scheme pattern at the start of [s] looks like. *)
Lemma match_alt_scheme (s r : jsstring) :
  match_alt scheme_regex s = Some r ->
  s = (js "rocketchat://") ++ r \/
  exists c1 c2, s = (js "https://go") ++ c1 :: ((js "rocket") ++ c2 :: ((js "chat/") ++ r)).
Proof.
  unfold scheme_regex. cbn [match_alt].
  destruct (match_seq (lits (js "rocketchat://")) s) as [r1|] eqn:E1.
  - intros [= ->]. left. apply match_seq_lits, E1.
  - rewrite match_seq_app.
    destruct (match_seq (lits (js "https://go")) s) as [r2|] eqn:E2; [|discriminate].
    apply match_seq_lits in E2. subst s.
    destruct (match_seq ([Dot] ++ lits (js "rocket") ++ [Dot] ++ lits (js "chat/")) r2)
      as [r3|] eqn:E3; [|discriminate].
    intros [= ->]. right.
    apply match_seq_Dot in E3 as (c1 & s1 & -> & E3).
    rewrite match_seq_app in E3.
    destruct (match_seq (lits (js "rocket")) s1) as [r4|] eqn:E4; [|discriminate].
    apply match_seq_lits in E4. subst s1.
    apply match_seq_Dot in E3 as (c2 & s2 & -> & E3).
    apply match_seq_lits in E3. subst s2. exists c1, c2. reflexivity.
Qed.

Lemma scheme_stripped (scheme p : jsstring) :
  scheme ∈ [js "rocketchat://"; js "https://go.rocket.chat/"] ->
  replace_first scheme_regex (scheme ++ p) = p.
Proof.
  rewrite !elem_of_cons, elem_of_nil.
  intros [->|[->|[]]]; apply replace_first_match; reflexivity.
Qed.

Lemma exec_keywords_scheme (scheme p : jsstring) :
  scheme ∈ [js "rocketchat://"; js "https://go.rocket.chat/"] ->
  exec_keywords keywords (scheme ++ p) = None.
Proof.
  rewrite !elem_of_cons, elem_of_nil. intros [->|[->|[]]]; reflexivity.
Qed.

Lemma includes_app (p a b : jsstring) : includes p (a ++ p ++ b) = true.
Proof.
  unfold includes. induction a as [|c a IH].
  - change ([] ++ p ++ b) with (p ++ b).
    destruct (p ++ b) eqn:E; cbn [test match_alt]; rewrite <- ?E;
      rewrite (proj2 (match_seq_lits p _ b)) by (symmetry; rewrite ?E; reflexivity);
      reflexivity.
  - cbn [app test].
    destruct (match_alt [lits p] (c :: (a ++ p ++ b))); [reflexivity | exact IH].
Qed.

End RegexMore.

(** ** More on the deep-link parser *)

Section ParserMore.
Import JsString Regex DeepLink.

(** X1: the two schemes are interchangeable: the same path gives the same
    result under [rocketchat://] and under [https://go.rocket.chat/]. *)
Theorem parse_scheme_independent {V E : Type}
    (parseQuery : jsstring -> completion E (option (gmap jsstring (value V))))
    (path : jsstring) :
  parseDeepLinking parseQuery (Some (js "rocketchat://" ++ path)) =
  parseDeepLinking parseQuery (Some (js "https://go.rocket.chat/" ++ path)).
Proof.
  rewrite !parseDeepLinking_exec.
  rewrite (scheme_stripped (js "rocketchat://") path) by left.
  rewrite (scheme_stripped (js "https://go.rocket.chat/") path) by (right; left).
  reflexivity.
Qed.

(** X2: only one scheme is removed: a URL that carries a scheme twice
    in a row is not an intent. *)
Theorem parse_double_scheme_is_null {V E : Type}
    (parseQuery : jsstring -> completion E (option (gmap jsstring (value V))))
    (s1 s2 path : jsstring) :
  s1 ∈ [js "rocketchat://"; js "https://go.rocket.chat/"] ->
  s2 ∈ [js "rocketchat://"; js "https://go.rocket.chat/"] ->
  parseDeepLinking parseQuery (Some (s1 ++ s2 ++ path)) = Return None.
Proof.
  intros H1 H2. rewrite parseDeepLinking_exec, (scheme_stripped _ _ H1),
    (exec_keywords_scheme _ _ H2). reflexivity.
Qed.

(** X3: whether a URL gives [null] is decided by the URL alone, not by
    what the query parser returns or throws. *)
Theorem parse_null_independent_of_parseQuery {V1 V2 E1 E2 : Type}
    (parseQuery1 : jsstring -> completion E1 (option (gmap jsstring (value V1))))
    (parseQuery2 : jsstring -> completion E2 (option (gmap jsstring (value V2))))
    (url : option jsstring) :
  parseDeepLinking parseQuery1 url = Return None <->
  parseDeepLinking parseQuery2 url = Return None.
Proof.
  destruct url as [u|]; [|split; reflexivity].
  rewrite !parseDeepLinking_exec.
  destruct (exec_keywords keywords (replace_first scheme_regex u)) as [[kw rest]|];
    [|split; reflexivity].
  destruct (truthy (trim rest)); [|split; reflexivity].
  destruct (parseQuery1 (trim rest)), (parseQuery2 (trim rest)); split; discriminate.
Qed.

(** X4: the query parser is only ever given a non-empty string without
    white space at either end: two query parsers that agree on such
    strings give the same parser. *)
Theorem parse_uses_trimmed_query {V E : Type}
    (parseQuery1 parseQuery2 : jsstring -> completion E (option (gmap jsstring (value V)))) :
  (forall query, query <> [] -> trim query = query ->
                 parseQuery1 query = parseQuery2 query) ->
  forall url, parseDeepLinking parseQuery1 url = parseDeepLinking parseQuery2 url.
Proof.
  intros Hagree [u|]; [|reflexivity].
  rewrite !parseDeepLinking_exec.
  destruct (exec_keywords keywords (replace_first scheme_regex u)) as [[kw rest]|];
    [|reflexivity].
  destruct (trim rest) as [|c t] eqn:Et; [reflexivity|].
  rewrite <- Et, (Hagree (trim rest)); [reflexivity | | apply trim_idem].
  rewrite Et. discriminate.
Qed.

(** X5: white space before and after the query makes no difference. *)
Theorem parse_ignores_white_space_around_query {V E : Type}
    (parseQuery : jsstring -> completion E (option (gmap jsstring (value V))))
    (scheme kw w1 query w2 : jsstring) :
  scheme ∈ [js "rocketchat://"; js "https://go.rocket.chat/"] ->
  kw ∈ keywords ->
  all_white_space w1 = true ->
  all_white_space w2 = true ->
  parseDeepLinking parseQuery (Some (scheme ++ kw ++ js "?" ++ w1 ++ query ++ w2)) =
  parseDeepLinking parseQuery (Some (scheme ++ kw ++ js "?" ++ query)).
Proof.
  intros Hs Hkw H1 H2. rewrite !parseDeepLinking_exec, !(scheme_stripped _ _ Hs).
  rewrite !(exec_keywords_app _ _ Hkw), (trim_padded _ _ _ H1 H2). reflexivity.
Qed.

(** X6: the anchored match and the removal of the match fit together: the
    keyword, a [?] and what [replace] leaves make up the text again; with
    no match, [replace] leaves the text as it is. *)
Theorem keyword_match_replace_recompose (url : jsstring) :
  match keyword_match url with
  | Some kw => kw ∈ keywords /\ url = kw ++ js "?" ++ keyword_replace url
  | None => keyword_replace url = url
  end.
Proof.
  unfold keyword_match, keyword_replace.
  destruct (exec_keywords keywords url) as [[kw rest]|] eqn:E; [|reflexivity].
  apply exec_keywords_Some in E. exact E.
Qed.

(** X7: removing the scheme deletes at most one block of the URL, which is
    [rocketchat://] or [https://go], any character, [rocket], any
    character, [chat/]; the text before and after it is kept as it is. *)
Theorem scheme_removal_deletes_one_block (url : jsstring) :
  exists before block after,
    url = before ++ block ++ after /\
    replace_first scheme_regex url = before ++ after /\
    (block = [] \/
     block = (js "rocketchat://") \/
     exists c1 c2, block = (js "https://go") ++ c1 :: ((js "rocket") ++ c2 :: (js "chat/"))).
Proof.
  induction url as [|c s IH]; cbn [replace_first].
  - destruct (match_alt scheme_regex []) eqn:E; [discriminate E|].
    exists [], [], []. repeat split. left. reflexivity.
  - destruct (match_alt scheme_regex (c :: s)) as [r|] eqn:E.
    + destruct (match_alt_scheme _ _ E) as [Hs|(c1 & c2 & Hs)].
      * exists [], (js "rocketchat://"), r. split; [exact Hs|]. split; [reflexivity|].
        right; left. reflexivity.
      * exists [], ((js "https://go") ++ c1 :: ((js "rocket") ++ c2 :: (js "chat/"))), r.
        split; [exact Hs|]. split; [reflexivity|].
        right; right. exists c1, c2. reflexivity.
    + destruct IH as (a & m & r & Hs & Hr & Hm).
      exists (c :: a), m, r. cbn [app]. rewrite Hr, <- Hs. repeat split. exact Hm.
Qed.

(** X8: a URL that has no [?] left once the scheme is removed is never an
    intent. *)
Theorem parse_without_separator_is_null {V E : Type}
    (parseQuery : jsstring -> completion E (option (gmap jsstring (value V))))
    (url : jsstring) :
  includes (js "?") (replace_first scheme_regex url) = false ->
  parseDeepLinking parseQuery (Some url) = Return None.
Proof.
  intros Hno. rewrite parseDeepLinking_exec.
  destruct (exec_keywords keywords (replace_first scheme_regex url))
    as [[kw rest]|] eqn:He; [|reflexivity].
  apply exec_keywords_Some in He as [_ He].
  rewrite He, includes_app in Hno. discriminate.
Qed.

(** X21: for [room], [auth] and [invite], when the parsed query has a
    [type] of its own the intent is the parsed query itself, unchanged. *)
Theorem parse_returns_query_with_own_type {V E : Type}
    (parseQuery : jsstring -> completion E (option (gmap jsstring (value V))))
    (url kw rest : jsstring) (query : gmap jsstring (value V)) (v : value V) :
  kw ∈ keywords ->
  kw <> (js "shareextension") ->
  replace_first scheme_regex url = kw ++ js "?" ++ rest ->
  all_white_space rest = false ->
  parseQuery (trim rest) = Return (Some query) ->
  query !! js "type" = Some v ->
  parseDeepLinking parseQuery (Some url) = Return (Some query).
Proof.
  intros Hkw Hne Hurl Hws Hq Hv.
  rewrite (parse_intent_of_query parseQuery url kw rest (Some query)
             (exec_of_shape _ _ _ Hkw Hurl) (trim_nonempty _ Hws) Hq).
  rewrite (keyword_not_share _ (keyword_cases _ Hkw Hne)).
  cbn [query_type spread default]. rewrite Hv. cbn [default].
  do 2 f_equal. apply insert_id, Hv.
Qed.

End ParserMore.

(** ** The listener for opened links *)

Section ListenerFacts.
Import DeepLink Effects Startup UrlListener.
Context {V N0 E : Type}.
Variable parseQuery : jsstring -> completion E (option (gmap jsstring (value V))).
Variable h : host N0 E.

Lemma onUrl_trace (url : jsstring) (h' : host N0 E) :
  trace_of (onUrl parseQuery url) h' =
  match parseDeepLinking parseQuery (Some url) with
  | Return (Some intent) => [Dispatch (deepLinkingOpen intent)]
  | _ => []
  end.
Proof.
  unfold trace_of, onUrl, dispatch, emit, lift, mret, M_ret, mbind, M_bind.
  destruct (parseDeepLinking parseQuery (Some url)) as [[intent|]|e]; reflexivity.
Qed.

(** X9: an opened link makes the listener dispatch at most one action;
    that action is a [deepLinkingOpen] whose intent has a [type] field,
    never [appInit] or [appInitLocalSettings]. *)
Theorem onUrl_dispatches_typed_intent_only (url : jsstring) :
  trace_of (onUrl parseQuery url) h = [] \/
  exists intent,
    trace_of (onUrl parseQuery url) h = [Dispatch (deepLinkingOpen intent)] /\
    parseDeepLinking parseQuery (Some url) = Return (Some intent) /\
    is_Some (intent !! js "type").
Proof.
  rewrite onUrl_trace.
  destruct (parseDeepLinking parseQuery (Some url)) as [[intent|]|e] eqn:Ep;
    [right | left; reflexivity | left; reflexivity].
  exists intent. split; [reflexivity|]. split; [reflexivity|].
  apply parse_Some_inv in Ep as (kw & rest & pq & _ & _ & _ & ->).
  rewrite lookup_insert_eq. eauto.
Qed.

(** X10: the startup arbitration and the listener treat a link alike: when
    no push notification is pending, the other two promises resolve and
    [parseDeepLinking] returns, the arbitration ends with the very action
    the listener dispatches for the same link, and with [appInit] when the
    listener dispatches nothing. *)
Theorem init_ends_as_onUrl (h0 : host N0 E) (url : jsstring)
    (parsed : option (gmap jsstring (value V))) :
  pendingNotification h0 = Return None ->
  initialNotification h0 = Return tt ->
  initialURL h0 = Return (Some url) ->
  parseDeepLinking parseQuery (Some url) = Return parsed ->
  last (trace_of (init parseQuery) h0) =
  match trace_of (onUrl parseQuery url) h with
  | [] => Some (Dispatch appInit)
  | e :: _ => Some e
  end.
Proof.
  intros Hn Hi Hu Hp. unfold trace_of at 1.
  rewrite init_run, Hn, Hi, Hu, onUrl_trace, Hp.
  destruct parsed; reflexivity.
Qed.

Lemma run_not_listening (os : list (N * occurrence)) :
  run parseQuery h os {| timeout := false; listening := false |} = [].
Proof.
  induction os as [|[t o] os IH]; [reflexivity|].
  cbn [run]. unfold elapse. cbn [timeout andb].
  destruct o; cbn [occur cleanup listening app]; exact IH.
Qed.

Lemma elapse_early (t : N) : (t < 5000)%N -> elapse t armed = armed.
Proof.
  intros Ht. unfold elapse, armed. cbn [timeout andb].
  destruct (N.leb_spec 5000 t); [lia | reflexivity].
Qed.

(** X11: links opened during the first 5000 ms after the mount effect are
    dropped: the listener is not registered yet. *)
Theorem early_links_are_dropped (os : list (N * occurrence)) :
  Forall (fun o => (o.1 < 5000)%N) os ->
  run parseQuery h os armed = [].
Proof.
  induction os as [|[t o] os IH]; intros Hall; [reflexivity|].
  apply Forall_cons in Hall as [Ht Hall]. cbn [fst] in Ht.
  cbn [run]. rewrite (elapse_early _ Ht).
  destruct o; cbn [occur cleanup armed listening app].
  - apply IH, Hall.
  - apply run_not_listening.
Qed.

(** X12: when the component is unmounted within the first 5000 ms, the
    timer is cleared and no link is ever dispatched, before or after. *)
Theorem unmount_before_delay_cancels_listener
    (before after : list (N * occurrence)) (t : N) :
  Forall (fun o => (o.1 < 5000)%N) before ->
  (t < 5000)%N ->
  run parseQuery h (before ++ (t, Unmount) :: after) armed = [].
Proof.
  induction before as [|[t' o] before IH]; intros Hall Ht.
  - cbn [app run]. rewrite (elapse_early _ Ht). cbn [occur cleanup armed listening app].
    apply run_not_listening.
  - apply Forall_cons in Hall as [Ht' Hall]. cbn [fst] in Ht'.
    cbn [app run]. rewrite (elapse_early _ Ht').
    destruct o; cbn [occur cleanup armed listening app].
    + apply IH; assumption.
    + apply run_not_listening.
Qed.

Lemma run_listening (os : list (N * occurrence)) (t : N) (url : jsstring) (st : listener) :
  listening st = true ->
  run parseQuery h (os ++ [(t, UrlOpened url)]) st =
  run parseQuery h os st ++ trace_of (onUrl parseQuery url) h.
Proof.
  revert st. induction os as [|[t' o] os IH]; intros st Hl.
  - cbn [app run]. unfold elapse.
    destruct (timeout st && (5000 <=? t)%N); cbn [occur listening]; rewrite ?Hl;
      rewrite app_nil_r; reflexivity.
  - cbn [app run].
    assert (Hl' : listening (elapse t' st) = true).
    { unfold elapse. destruct (timeout st && (5000 <=? t')%N); [reflexivity | exact Hl]. }
    destruct o; cbn [occur].
    + rewrite Hl', <- app_assoc. f_equal. apply IH, Hl'.
    + cbn [app]. apply IH. exact Hl'.
Qed.

(** X13: once the timer has fired the listener stays for good: the cleanup
    of the mount effect does not remove it, so every later link is handled,
    also after an unmount. *)
Theorem listener_outlives_unmount
    (t0 : N) (o : occurrence) (os : list (N * occurrence)) (t : N) (url : jsstring) :
  (5000 <= t0)%N ->
  run parseQuery h ((t0, o) :: os ++ [(t, UrlOpened url)]) armed =
  run parseQuery h ((t0, o) :: os) armed ++ trace_of (onUrl parseQuery url) h.
Proof.
  intros Ht0.
  assert (Hel : elapse t0 armed = {| timeout := false; listening := true |}).
  { unfold elapse, armed. cbn [timeout andb].
    destruct (N.leb_spec 5000 t0) as [_|Hlt]; [reflexivity | lia]. }
  cbn [run]. rewrite Hel.
  destruct o; cbn [occur cleanup listening].
  - rewrite <- app_assoc. f_equal. apply run_listening. reflexivity.
  - cbn [app]. apply run_listening. reflexivity.
Qed.

End ListenerFacts.

(** ** The mount effect *)

Section MountFacts.
Import Number DeepLink Layout Effects Startup Mount.
Context {V N E P : Type}.
Variable parseQuery : jsstring -> completion E (option (gmap jsstring (value V))).
Variable isFDroidBuild : bool.
Variable isTablet : bool.
Variable MIN_WIDTH_MASTER_DETAIL_LAYOUT : Q.
Variable h : host N E.

Lemma init_started_trace :
  trace_of (init_started (V:=V) (E:=E)) h =
  [Dispatch appInitLocalSettings; InitializePushNotifications].
Proof. reflexivity. Qed.

Lemma init_resumed_trace :
  trace_of (init_resumed parseQuery) h =
  match pendingNotification h with
  | Throw _ => []
  | Return (Some notification) => [OnNotification notification]
  | Return None =>
      GetInitialNotification ::
      match initialNotification h with
      | Throw _ => []
      | Return _ =>
          GetInitialURL ::
          match initialURL h with
          | Throw _ => []
          | Return deepLinking =>
              match parseDeepLinking parseQuery deepLinking with
              | Throw _ => []
              | Return (Some intent) => [Dispatch (deepLinkingOpen intent)]
              | Return None => [Dispatch appInit]
              end
          end
      end
  end.
Proof.
  unfold trace_of, init_resumed, getInitialURL, getInitialNotification,
    onNotification, dispatch, emit, await, lift, mbind, M_bind.
  cbn [app].
  destruct (pendingNotification h) as [[n|]|e]; try reflexivity.
  destruct (initialNotification h) as [[]|e]; try reflexivity.
  destruct (initialURL h) as [u|e]; try reflexivity.
  destruct (parseDeepLinking parseQuery u) as [[intent|]|e]; reflexivity.
Qed.

(** [init], cut at its first [await], is [init] again. *)
Lemma init_split :
  trace_of (init parseQuery) h =
  trace_of (init_started (V:=V) (E:=E)) h ++ trace_of (init_resumed parseQuery) h.
Proof.
  rewrite init_started_trace, init_resumed_trace. unfold trace_of. rewrite init_run.
  destruct (pendingNotification h) as [[n|]|e]; try reflexivity.
  destruct (initialNotification h) as [[]|e]; try reflexivity.
  destruct (initialURL h) as [u|e]; try reflexivity.
  destruct (parseDeepLinking parseQuery u) as [[intent|]|e]; reflexivity.
Qed.

Lemma initTablet_trace (width : number) :
  trace_of (initTablet (V:=V) (E:=E) isTablet MIN_WIDTH_MASTER_DETAIL_LAYOUT width) h =
  [Dispatch (setMasterDetailAction
               (getMasterDetail isTablet MIN_WIDTH_MASTER_DETAIL_LAYOUT width))].
Proof. reflexivity. Qed.

Lemma init_resumed_no_gate :
  List.filter is_report_query (Event (P:=P) <$> trace_of (init_resumed parseQuery) h) = [] /\
  List.filter is_setMasterDetail (Event (P:=P) <$> trace_of (init_resumed parseQuery) h) = [].
Proof.
  rewrite init_resumed_trace.
  destruct (pendingNotification h) as [[n|]|e]; try (split; reflexivity).
  destruct (initialNotification h) as [[]|e]; try (split; reflexivity).
  destruct (initialURL h) as [u|e]; try (split; reflexivity).
  destruct (parseDeepLinking parseQuery u) as [[intent|]|e]; split; reflexivity.
Qed.

(** X15: the two gates of the mount effect: the crash and analytics
    settings are queried, once each, exactly when the build is not an
    F-Droid build; [setMasterDetail] is dispatched, once, exactly when the
    device is a tablet, with [getMasterDetail] of the width. *)
Theorem mount_gates (width : number) (initTheme : P) :
  List.filter is_report_query
    (mount (P:=P) parseQuery isFDroidBuild isTablet
       MIN_WIDTH_MASTER_DETAIL_LAYOUT h width initTheme) =
    (if isFDroidBuild then [] else [GetAllowCrashReport; GetAllowAnalyticsEvents]) /\
  List.filter is_setMasterDetail
    (mount (P:=P) parseQuery isFDroidBuild isTablet
       MIN_WIDTH_MASTER_DETAIL_LAYOUT h width initTheme) =
    (if isTablet
     then [Event (Dispatch (setMasterDetailAction
                              (getMasterDetail true MIN_WIDTH_MASTER_DETAIL_LAYOUT width)))]
     else []).
Proof.
  destruct init_resumed_no_gate as [Hr Hs].
  unfold mount. rewrite !List.filter_app, Hr, Hs, !app_nil_r.
  unfold mountEffect. rewrite init_started_trace, initTablet_trace.
  destruct isFDroidBuild, isTablet; split; reflexivity.
Qed.

(** X16: on a device that is not a tablet master-detail is never switched
    on: the mount dispatches no [setMasterDetail], and every dimension
    change that is applied dispatches [setMasterDetail(false)], whatever
    the width. *)
Theorem phone_never_master_detail (width : number) (initTheme : P) (window : IDimensions) :
  List.filter is_setMasterDetail
    (mount (P:=P) parseQuery isFDroidBuild false
       MIN_WIDTH_MASTER_DETAIL_LAYOUT h width initTheme) = [] /\
  trace_of (applyDimensions (V:=V) (E:=E) false MIN_WIDTH_MASTER_DETAIL_LAYOUT window) h =
  [SetDimensions {| Effects.width := Effects.width window;
                    Effects.height := Effects.height window;
                    Effects.scale := Effects.scale window;
                    Effects.fontScale := Effects.fontScale window |};
   Dispatch (setMasterDetailAction false)].
Proof.
  split; [|reflexivity].
  destruct init_resumed_no_gate as [_ Hs].
  unfold mount. rewrite List.filter_app, Hs, app_nil_r.
  unfold mountEffect. rewrite init_started_trace.
  destruct isFDroidBuild; reflexivity.
Qed.

End MountFacts.

(** ** More on the layout-mode resolver *)

Section LayoutMore.
Import Number Layout.
Variable isTablet : bool.
Variable MIN_WIDTH_MASTER_DETAIL_LAYOUT : Q.

(** X17: the resolver is monotone in the width: once master-detail is on
    at a width it is on at every larger one. *)
Theorem getMasterDetail_monotone (w1 w2 : Q) :
  (w1 <= w2)%Q ->
  getMasterDetail isTablet MIN_WIDTH_MASTER_DETAIL_LAYOUT (Finite w1) = true ->
  getMasterDetail isTablet MIN_WIDTH_MASTER_DETAIL_LAYOUT (Finite w2) = true.
Proof.
  unfold getMasterDetail. destruct isTablet; cbn [negb]; [|discriminate].
  rewrite !gt_Finite. intros Hle Hlt. eapply Qlt_le_trans; eassumption.
Qed.

(** X18: master-detail is on only on a tablet and only for a width that is
    a number above the threshold: never for [NaN], never for
    [-Infinity]; on a tablet it is on for [+Infinity]. *)
Theorem getMasterDetail_true_only_if (width : number) :
  (getMasterDetail isTablet MIN_WIDTH_MASTER_DETAIL_LAYOUT width = true ->
   isTablet = true /\
   (width = Infinity false \/
    exists q, width = Finite q /\ (MIN_WIDTH_MASTER_DETAIL_LAYOUT < q)%Q)) /\
  getMasterDetail isTablet MIN_WIDTH_MASTER_DETAIL_LAYOUT (Infinity false) = isTablet.
Proof.
  split; [|destruct isTablet; reflexivity].
  unfold getMasterDetail. destruct isTablet; cbn [negb]; [|discriminate].
  intros H. split; [reflexivity|].
  destruct width as [|[|]|q]; try discriminate H.
  - left. reflexivity.
  - right. exists q. split; [reflexivity|]. apply gt_Finite, H.
Qed.

End LayoutMore.

(** ** The state of [Root] *)

Section RootStateFacts.
Import RootState.
Context {P T : Type}.
Variable initialTheme : P.
Variable getTheme : P -> T.
Variable newThemeState : ThemeState.t P T -> P -> ThemeState.t P T.

Lemma apply_keeps_metrics (c : cells P T) (u : update P T) :
  width (themeState (apply newThemeState c u)) = width (themeState c) /\
  height (themeState (apply newThemeState c u)) = height (themeState c) /\
  scale (themeState (apply newThemeState c u)) = scale (themeState c) /\
  fontScale (themeState (apply newThemeState c u)) = fontScale (themeState c).
Proof.
  destruct u as [d|captured [newTheme|]]; repeat split; reflexivity.
Qed.

(** X19: the dimensions given to [DimensionsContext.Provider] never
    change: whatever calls of [setDimensions] and [setTheme] are made, they
    are the dimensions read at the first render. *)
Theorem dimensionsContext_is_initial
    (window : Effects.IDimensions) (us : list (update P T)) :
  dimensionsContext (updates initialTheme getTheme newThemeState window us) =
  {| Effects.width := Effects.width window;
     Effects.height := Effects.height window;
     Effects.scale := Effects.scale window;
     Effects.fontScale := Effects.fontScale window |}.
Proof.
  unfold updates. induction us as [|u us IH] using rev_ind; [reflexivity|].
  rewrite foldl_snoc. unfold dimensionsContext in *.
  destruct (apply_keeps_metrics
              (foldl (apply newThemeState) (initial initialTheme getTheme window) us) u)
    as (-> & -> & -> & ->).
  exact IH.
Qed.

(** X20: the theme given to [ThemeContext.Provider] is the initial one or
    the [state] captured by the closure of a [setTheme] call that had an
    argument; what [newThemeState] returns goes to the [state] cell only. *)
Theorem themeContext_is_initial_or_captured
    (window : Effects.IDimensions) (us : list (update P T)) :
  let c := updates initialTheme getTheme newThemeState window us in
  themeContext c =
    {| ThemeState.themePreferences := initialTheme;
       ThemeState.theme := getTheme initialTheme |} \/
  exists captured newTheme,
    SetTheme captured (Some newTheme) ∈ us /\
    themeContext c =
      {| ThemeState.themePreferences := ThemeState.themePreferences captured;
         ThemeState.theme := ThemeState.theme captured |}.
Proof.
  cbv zeta. unfold updates. induction us as [|u us IH] using rev_ind; [left; reflexivity|].
  rewrite foldl_snoc.
  destruct u as [d|captured [newTheme|]]; cbn [apply setDimensions setTheme].
  - destruct IH as [IH|(cap & nt & Hin & IH)]; [left; exact IH|].
    right. exists cap, nt. split; [apply elem_of_app; left; exact Hin | exact IH].
  - right. exists captured, newTheme.
    split; [apply elem_of_app; right; left | reflexivity].
  - destruct IH as [IH|(cap & nt & Hin & IH)]; [left; exact IH|].
    right. exists cap, nt. split; [apply elem_of_app; left; exact Hin | exact IH].
Qed.

End RootStateFacts.

(** ** Further runs on concrete inputs *)

(** C1 as stated fails: when [initializePushNotifications] rejects, [init]
    reaches none of the three ends; so it does when
    [getInitialNotification] rejects although the link is valid. *)
Lemma init_rejection_counterexample :
  let h1 := {| Effects.pendingNotification := @Throw unit (option unit) tt;
               Effects.initialNotification := Return tt;
               Effects.initialURL := Return (Some (js "rocketchat://room?rid=1")) |} in
  let h2 := {| Effects.pendingNotification := @Return unit (option unit) None;
               Effects.initialNotification := Throw tt;
               Effects.initialURL := Return (Some (js "rocketchat://room?rid=1")) |} in
  List.filter Startup.terminal
    (Effects.trace_of (Startup.init DeepLink.parseQuery_model) h1) = [] /\
  List.filter Startup.terminal
    (Effects.trace_of (Startup.init DeepLink.parseQuery_model) h2) = [] /\
  Effects.outcome_of (Startup.init DeepLink.parseQuery_model) h2 = Throw tt.
Proof. cbv zeta. repeat split; vm_compute; reflexivity. Qed.

(** X2 on the custom scheme followed by the redirect host. *)
Lemma parse_double_scheme_is_null_witness :
  DeepLink.parseDeepLinking (DeepLink.parseQuery_model (E:=unit))
    (Some (js "rocketchat://" ++ js "https://go.rocket.chat/" ++ js "room?rid=1"))
  = Return None.
Proof.
  apply (parse_double_scheme_is_null (DeepLink.parseQuery_model (E:=unit))
           (js "rocketchat://") (js "https://go.rocket.chat/") (js "room?rid=1"));
    [left | right; left].
Defined.

(** X3 with a query parser that always throws. *)
Lemma parse_null_independent_of_parseQuery_witness :
  DeepLink.parseDeepLinking (V:=unit) (fun _ => Throw tt)
    (Some (js "rocketchat://settings?x=1")) = Return None.
Proof.
  apply (proj1 (parse_null_independent_of_parseQuery
                  (DeepLink.parseQuery_model (E:=unit)) (fun _ => Throw tt)
                  (Some (js "rocketchat://settings?x=1")))).
  reflexivity.
Defined.

(** X4 with a query parser that refuses strings with white space around
    them. *)
Lemma parse_uses_trimmed_query_witness :
  let strict query :=
    if JsString.eqb (JsString.trim query) query
    then DeepLink.parseQuery_model (E:=unit) query else Return None in
  DeepLink.parseDeepLinking DeepLink.parseQuery_model
    (Some (js "rocketchat://room?" ++ [8195]%N ++ js "rid=1 ")) =
  DeepLink.parseDeepLinking strict
    (Some (js "rocketchat://room?" ++ [8195]%N ++ js "rid=1 ")).
Proof.
  cbv zeta. apply parse_uses_trimmed_query.
  intros query _ Ht. rewrite Ht, (proj2 (eqb_eq query query) eq_refl). reflexivity.
Defined.

(** X5 on [rocketchat://room?], an em space (U+2003), [rid=1], a space and
    a byte order mark (U+FEFF). *)
Lemma parse_ignores_white_space_around_query_witness :
  DeepLink.parseDeepLinking (DeepLink.parseQuery_model (E:=unit))
    (Some (js "rocketchat://" ++ js "room" ++ js "?" ++ [8195]%N ++ js "rid=1"
             ++ [32; 65279]%N)) =
  DeepLink.parseDeepLinking (DeepLink.parseQuery_model (E:=unit))
    (Some (js "rocketchat://" ++ js "room" ++ js "?" ++ js "rid=1")).
Proof.
  apply (parse_ignores_white_space_around_query (DeepLink.parseQuery_model (E:=unit))
           (js "rocketchat://") (js "room") [8195]%N (js "rid=1") [32; 65279]%N);
    [left | left | reflexivity | reflexivity].
Defined.

(** X8 on a link with a keyword and no [?]. *)
Lemma parse_without_separator_is_null_witness :
  DeepLink.parseDeepLinking (DeepLink.parseQuery_model (E:=unit))
    (Some (js "rocketchat://room")) = Return None.
Proof.
  apply (parse_without_separator_is_null (DeepLink.parseQuery_model (E:=unit))
           (js "rocketchat://room")).
  reflexivity.
Defined.

(** X21 on a [room] link whose query has a [type]. *)
Lemma parse_returns_query_with_own_type_witness :
  DeepLink.parseDeepLinking (DeepLink.parseQuery_model (E:=unit))
    (Some (js "rocketchat://room?type=direct")) =
  Return (Some {[js "type" := DeepLink.Str (js "direct")]}).
Proof.
  apply (parse_returns_query_with_own_type (DeepLink.parseQuery_model (E:=unit))
           (js "rocketchat://room?type=direct") (js "room") (js "type=direct")
           {[js "type" := DeepLink.Str (js "direct")]} (DeepLink.Str (js "direct")));
    [left | vm_compute; discriminate | reflexivity | reflexivity | vm_compute; reflexivity
    | vm_compute; reflexivity].
Defined.

(** X10 on a host with no notification and a [room] link. *)
Lemma init_ends_as_onUrl_witness :
  let h := {| Effects.pendingNotification := @Return unit (option unit) None;
              Effects.initialNotification := Return tt;
              Effects.initialURL := Return (Some (js "rocketchat://room?rid=1")) |} in
  last (Effects.trace_of (Startup.init DeepLink.parseQuery_model) h) =
  Some (Effects.Dispatch
          (Effects.deepLinkingOpen
             (<[js "type" := DeepLink.Undefined]> {[js "rid" := DeepLink.Str (js "1")]}))).
Proof.
  cbv zeta.
  rewrite (init_ends_as_onUrl (DeepLink.parseQuery_model (E:=unit)) Effects.quiet_host
             {| Effects.pendingNotification := @Return unit (option unit) None;
                Effects.initialNotification := Return tt;
                Effects.initialURL := Return (Some (js "rocketchat://room?rid=1")) |}
             (js "rocketchat://room?rid=1")
             (Some (<[js "type" := DeepLink.Undefined]> {[js "rid" := DeepLink.Str (js "1")]}))
             eq_refl eq_refl eq_refl);
    [vm_compute; reflexivity | vm_compute; reflexivity].
Defined.

(** X11 on two links opened 100 ms and 4999 ms after the mount. *)
Lemma early_links_are_dropped_witness :
  UrlListener.run (DeepLink.parseQuery_model (E:=unit))
    Effects.quiet_host
    [(100%N, UrlListener.UrlOpened (js "rocketchat://room?rid=1"));
     (4999%N, UrlListener.UrlOpened (js "rocketchat://auth?token=t"))]
    UrlListener.armed = [].
Proof.
  apply early_links_are_dropped.
  repeat (apply Forall_cons; split; [cbn; lia|]). apply Forall_nil_2.
Defined.

(** X12 on an unmount after 3 s, with a link before and a link after. *)
Lemma unmount_before_delay_cancels_listener_witness :
  UrlListener.run (DeepLink.parseQuery_model (E:=unit))
    Effects.quiet_host
    ([(10%N, UrlListener.UrlOpened (js "rocketchat://room?rid=1"))] ++
     (3000%N, UrlListener.Unmount) ::
     [(6000%N, UrlListener.UrlOpened (js "rocketchat://room?rid=1"))])
    UrlListener.armed = [].
Proof.
  apply unmount_before_delay_cancels_listener; [|lia].
  apply Forall_cons; split; [cbn; lia | apply Forall_nil_2].
Defined.

(** X13 on an unmount after 5 s followed by a link after 9 s. *)
Lemma listener_outlives_unmount_witness :
  UrlListener.run (DeepLink.parseQuery_model (E:=unit)) Effects.quiet_host
    ((5000%N, UrlListener.Unmount) :: [] ++ [(9000%N, UrlListener.UrlOpened (js "rocketchat://room?rid=1"))])
    UrlListener.armed =
  [Effects.Dispatch
     (Effects.deepLinkingOpen
        (<[js "type" := DeepLink.Undefined]> {[js "rid" := DeepLink.Str (js "1")]}))].
Proof.
  cbv zeta.
  rewrite (listener_outlives_unmount (DeepLink.parseQuery_model (E:=unit)) Effects.quiet_host 5000%N UrlListener.Unmount []
             9000%N (js "rocketchat://room?rid=1")); [|lia].
  vm_compute. reflexivity.
Defined.

(** X17 with a threshold of 700, at the widths 701 and 1024. *)
Lemma getMasterDetail_monotone_witness :
  Layout.getMasterDetail true 700 (Number.Finite 1024) = true.
Proof.
  apply (getMasterDetail_monotone true 700 701 1024); [|reflexivity].
  unfold Qle. cbn. lia.
Defined.

(** X18 with a threshold of 700, at the width 800. *)
Lemma getMasterDetail_true_only_if_witness :
  exists q, Number.Finite 800 = Number.Finite q /\ (700 < q)%Q.
Proof.
  destruct (proj1 (getMasterDetail_true_only_if true 700 (Number.Finite 800)) eq_refl)
    as [_ [H|H]]; [discriminate H | exact H].
Defined.
